(** * Taiyaki utilities: JSON-to-checkpoint converter and q-score calibrator

    A shallow embedding of [bin/json_to_checkpoint.py] and
    [misc/calibrate_qscores_byread.py].  Python control flow is rendered in a
    small writer/exception monad: a computation yields the events it emitted
    (text written to the streams, calls into the plotting and ML libraries)
    together with either a value or the exception that ended it.  numpy's
    float64 is Rocq's primitive binary64 [float]; dictionaries are [gmap]s,
    Python sets are [gset]s. *)

From Stdlib Require Import Floats ZArith Lia Ascii String.
From stdpp Require Import gmap strings list pretty.

Set Default Proof Using "Type".
#[global] Set Warnings "-register-all,-inexact-float".
Local Open Scope string_scope.
Local Open Scope list_scope.
Local Open Scope nat_scope.

(** ** Python runtime *)

Module Py.

(** The exceptions the two scripts can end with.  [SystemExit] carries the
    exit code given to [sys.exit]. *)
Inductive exn :=
| SystemExit (code : Z)
| KeyError (key : string)
| IndexError
| ValueError
| TypeError
| ZeroDivisionError
| NameError (name : string)
| UnboundLocalError (name : string)
| Exception (msg : string)
| LibraryError (what : string).

Inductive result (A : Type) :=
| Ok (a : A)
| Raise (e : exn).
Arguments Ok {A} a.
Arguments Raise {A} e.

(** A run: the events emitted so far, and how it ended. *)
Record io (E A : Type) := IO { trace : list E; outcome : result A }.
Arguments IO {E A} trace outcome.
Arguments trace {E A} _.
Arguments outcome {E A} _.

Section Monad.
Context {E : Type}.

Definition io_ret {A} (a : A) : io E A := IO [] (Ok a).

Definition io_bind {A B} (f : A → io E B) (m : io E A) : io E B :=
  match outcome m with
  | Ok a => let r := f a in IO (trace m ++ trace r) (outcome r)
  | Raise e => IO (trace m) (Raise e)
  end.

Definition emit (e : E) : io E unit := IO [e] (Ok tt).
Definition raise {A} (e : exn) : io E A := IO [] (Raise e).
Definition lift {A} (r : result A) : io E A := IO [] r.

(** The value a run ended with, if it did not raise. *)
Definition outcome_value {A} (m : io E A) : option A :=
  match outcome m with
  | Ok a => Some a
  | Raise _ => None
  end.

(** [d[k]] on a dictionary entry that may be absent. *)
Definition getitem {A} (key : string) (o : option A) : io E A :=
  match o with
  | Some a => io_ret a
  | None => raise (KeyError key)
  end.

(** Reading a local or global name that may not have been assigned. *)
Definition read_local {A} (name : string) (o : option A) : io E A :=
  match o with
  | Some a => io_ret a
  | None => raise (UnboundLocalError name)
  end.

Definition read_global {A} (name : string) (o : option A) : io E A :=
  match o with
  | Some a => io_ret a
  | None => raise (NameError name)
  end.

(** A list comprehension whose body may raise. *)
Fixpoint io_map {A B} (f : A → io E B) (l : list A) : io E (list B) :=
  match l with
  | [] => io_ret []
  | x :: l' =>
      io_bind (fun y => io_bind (fun ys => io_ret (y :: ys)) (io_map f l'))
              (f x)
  end.
End Monad.

#[global] Instance io_mret {E} : MRet (io E) := @io_ret E.
#[global] Instance io_mbind {E} : MBind (io E) := @io_bind E.

(** *** Strings *)

Definition nl : string := String (Ascii.ascii_of_nat 10) "".
Definition tab : string := String (Ascii.ascii_of_nat 9) "".

Fixpoint startswith (p s : string) : bool :=
  match p, s with
  | EmptyString, _ => true
  | String a p', String b s' => if Ascii.eqb a b then startswith p' s' else false
  | String _ _, EmptyString => false
  end.

(** [re.search(pat, s)] for a pattern without metacharacters (every pattern
    of the converter is a plain word): [pat] occurs somewhere in [s]. *)
Fixpoint re_search (pat s : string) : bool :=
  startswith pat s ||
  match s with
  | EmptyString => false
  | String _ s' => re_search pat s'
  end.

(** [s.endswith(suffix)]. *)
Definition endswith (s suffix : string) : bool :=
  startswith (String.rev suffix) (String.rev s).

(** [sep.join(l)]. *)
Fixpoint join (sep : string) (l : list string) : string :=
  match l with
  | [] => ""
  | [x] => x
  | x :: l' => x +:+ sep +:+ join sep l'
  end.

(** [str.format] for templates whose only fields are the automatic
    [{}]: the fields are replaced left to right.  Every call of the
    converter passes as many arguments as there are fields; with too few
    Python raises, which the model does not render (the field stays). *)
Fixpoint format (fmt : string) (args : list string) : string :=
  match fmt with
  | EmptyString => ""
  | String c rest =>
      match c, rest, args with
      | "{"%char, String "}"%char rest', a :: args' => a +:+ format rest' args'
      | _, _, _ => String c (format rest args)
      end
  end.

(** [s * n]: [n] copies, none when [n] is not positive. *)
Definition str_mul (s : string) (n : Z) : string :=
  Nat.iter (Z.to_nat n) (fun acc => s +:+ acc) "".

(** [s[i]] with Python's indexing: a negative index counts from the end,
    anything outside raises IndexError. *)
Definition str_getitem (s : string) (i : Z) : result string :=
  let n := Z.of_nat (String.length s) in
  let j := if (i <? 0)%Z then (i + n)%Z else i in
  if ((0 <=? j) && (j <? n))%Z
  then match String.get (Z.to_nat j) s with
       | Some c => Ok (String c "")
       | None => Raise IndexError
       end
  else Raise IndexError.

(** [repr] of a string without quotes, backslashes or control characters,
    and of a list of such strings. *)
Definition repr_str (s : string) : string := "'" +:+ s +:+ "'".
Definition repr_list (l : list string) : string :=
  "[" +:+ join ", " (repr_str <$> l) +:+ "]".

End Py.
Import Py.


(** ** The model converter ([bin/json_to_checkpoint.py]) *)

Module Converter.

(** A JSON parameter array as [json.load] returns it, and equally a numpy
    array or a tensor built from it: nested lists of numbers. *)
Inductive ndarray :=
| Num (x : float)
| Arr (xs : list ndarray).

(** The kinds of layer the converter can build, with the arguments given to
    the constructors of [taiyaki.layers]. *)
Record alphabet_info := AlphabetInfoObj {
  alphabet : string;
  collapse_alphabet : string;
  mod_long_names : list string }.

Inductive layer_kind :=
| Convolution (insize size winlen stride : Z)
| GruMod (insize size : Z)
| Reverse (inner : layer_kind)
| GlobalNormFlipFlop (insize nbase : Z)
| GlobalNormFlipFlopCatMod (insize : Z) (info : alphabet_info).

(** A layer object: what it was built as, and its [state_dict()], an ordered
    mapping from parameter name to tensor. *)
Record layer := Layer {
  kind : layer_kind;
  state_dict : list (string * ndarray) }.

(** A layer descriptor of the JSON model.  It always has a string [type];
    every other key may be absent, and reading an absent key raises
    KeyError.  A [reverse] layer keeps its recurrent cell under
    [sublayers]. *)
Inductive sublayer := Sublayer {
  type : string;
  activation : option string;
  insize : option Z;
  size : option Z;
  winlen : option Z;
  stride : option Z;
  output_alphabet : option string;
  can_nmods : option (list Z);
  modified_base_long_names : option (list string);
  sublayers : option sublayer;
  params : option (gmap string ndarray) }.

Record jsn_model := JsnModel { model_sublayers : list sublayer }.

Inductive event :=
| Stderr (text : string)
| Stdout (text : string)
| Construct (k : layer_kind)
| TorchSave (network : list layer) (path : string).

Definition COMPATIBLE_LAYERS : gset string :=
  {[ "convolution"; "GruMod"; "reverse"; "GlobalNormTwoState";
     "GlobalNormTwoStateCatMod" ]}.

(** [np.concatenate(a)] along axis 0: [a] is a non-empty sequence of arrays
    of at least one dimension, which are joined end to end.  (numpy also
    rejects parts whose trailing dimensions differ; the model joins them.) *)
Definition np_concatenate (a : ndarray) : result ndarray :=
  match a with
  | Num _ => Raise TypeError
  | Arr [] => Raise ValueError
  | Arr parts =>
      foldr (fun part acc =>
               match part, acc with
               | Arr rows, Ok (Arr rest) => Ok (Arr (rows ++ rest))
               | _, Raise e => Raise e
               | _, _ => Raise ValueError
               end) (Ok (Arr [])) parts
  end.

(** [np.array(a)] of a regular nested list is that array. *)
Definition np_array (a : ndarray) : ndarray := a.

Fixpoint shape (a : ndarray) : list nat :=
  match a with
  | Num _ => []
  | Arr [] => [0]
  | Arr ((x :: _) as xs) => length xs :: shape x
  end.

(** [k in d]. *)
Definition contains {V} (d : gmap string V) (k : string) : bool :=
  bool_decide (is_Some (d !! k)).

(** [od[k] = v] on an ordered dictionary: a known key keeps its place. *)
Fixpoint od_set {V} (k : string) (v : V) (od : list (string * V)) : list (string * V) :=
  match od with
  | [] => [(k, v)]
  | (k', v') :: od' =>
      if String.eqb k k' then (k, v) :: od' else (k', v') :: od_set k v od'
  end.

(** The local variables of [set_params] that live across iterations of its
    loop; [None] is a name not assigned yet. *)
Record locals := Locals {
  jsn_name : option string;
  jsn_layer_params : option ndarray;
  params_od : list (string * ndarray) }.

Section Torch.

(** The ML runtime, taken as given: how [torch.Tensor] stores a float64,
    the parameters of a freshly constructed layer, the strict
    [load_state_dict], and the two helpers of the toolkit that the layer
    factory calls. *)
Variable to_float32 : float → float.
Variable initial_state_dict : layer_kind → list (string * ndarray).
Variable load_state_dict : layer → list (string * ndarray) → result layer.
Variable nbase_flipflop : Z → result Z.
Variable AlphabetInfo : string → string → list string → result alphabet_info.

Fixpoint torch_Tensor (a : ndarray) : ndarray :=
  match a with
  | Num x => Num (to_float32 x)
  | Arr xs => Arr (map torch_Tensor xs)
  end.

Definition new_layer (k : layer_kind) : io event layer :=
  emit (Construct k);; mret (Layer k (initial_state_dict k)).

Definition assign_params (st : locals) (v : ndarray) : locals :=
  Locals (jsn_name st) (Some v) (params_od st).

(** The [if]/[elif] chain of the loop body (lines 43-65): which source array
    the parameter [layer_name] is given. *)
Definition guess_params (jsn_params : gmap string ndarray) (st : locals)
    (layer_name : string) : io event locals :=
  if contains jsn_params layer_name then
    mret (Locals (Some layer_name) (jsn_layer_params st) (params_od st))
  else if re_search "weight_ih" layer_name && contains jsn_params "iW" then
    a ← getitem "iW" (jsn_params !! "iW");
    c ← lift (np_concatenate a);
    mret (assign_params st (torch_Tensor c))
  else if re_search "weight_hh" layer_name && contains jsn_params "sW" then
    a ← getitem "sW" (jsn_params !! "sW");
    c ← lift (np_concatenate a);
    mret (assign_params st (torch_Tensor c))
  else if re_search "bias_ih" layer_name && contains jsn_params "b" then
    a ← getitem "b" (jsn_params !! "b");
    c ← lift (np_concatenate a);
    mret (assign_params st (torch_Tensor c))
  else if re_search "bias_hh" layer_name then
    mret st
  else if re_search "weight" layer_name && contains jsn_params "W" then
    a ← getitem "W" (jsn_params !! "W");
    mret (assign_params st (torch_Tensor (np_array a)))
  else if re_search "bias" layer_name && contains jsn_params "b" then
    a ← getitem "b" (jsn_params !! "b");
    mret (assign_params st (torch_Tensor (np_array a)))
  else
    emit (Stderr (format ("Incompatible layer parameter type " +:+
                          "({}) encountered." +:+ nl) [layer_name]));;
    raise (SystemExit 1).

(** One iteration: the chain, then [params_od[layer_name] = jsn_layer_params]
    (line 69). *)
Definition set_params_step (jsn_params : gmap string ndarray) (st : locals)
    (layer_name : string) : io event locals :=
  st' ← guess_params jsn_params st layer_name;
  v ← read_local "jsn_layer_params" (jsn_layer_params st');
  mret (Locals (jsn_name st') (jsn_layer_params st')
               (od_set layer_name v (params_od st'))).

(** The loop over [layer.state_dict().items()] (lines 40-69). *)
Fixpoint set_params_loop (jsn_params : gmap string ndarray) (st : locals)
    (items : list (string * ndarray)) : io event locals :=
  match items with
  | [] => mret st
  | (layer_name, layer_params) :: items' =>
      st' ← set_params_step jsn_params st layer_name;
      set_params_loop jsn_params st' items'
  end.

Definition initial_locals : locals := Locals None None [].

(** The name and shape dump printed when loading fails with TypeError. *)
Definition shape_dump (od : list (string * ndarray)) : string :=
  join nl ((fun kv => "(" +:+ repr_str kv.1 +:+ ", torch.Size([" +:+
                      join ", " (pretty <$> shape kv.2) +:+ "]))") <$> od).

Definition set_params (l : layer) (jsn_params : gmap string ndarray) : io event layer :=
  st ← set_params_loop jsn_params initial_locals (state_dict l);
  match load_state_dict l (params_od st) with
  | Ok l' => mret l'
  | Raise TypeError => emit (Stdout (shape_dump (params_od st) +:+ nl));; raise TypeError
  | Raise e => raise e
  end.

(** The collapse alphabet of a modified-base layer (lines 116-122): one
    iteration per canonical base, taking the symbol at [curr_can_base] of
    the output alphabet [can_i_nmod + 1] times and stepping over the
    modified bases that follow it. *)
Fixpoint collapse_alphabet_loop (output_alphabet : string) (can_nmods : list Z)
    (curr_can_base : Z) (collapse_alphabet : string) : result string :=
  match can_nmods with
  | [] => Ok collapse_alphabet
  | can_i_nmod :: rest =>
      match str_getitem output_alphabet curr_can_base with
      | Ok base =>
          collapse_alphabet_loop output_alphabet rest
            (curr_can_base + (can_i_nmod + 1))
            (collapse_alphabet +:+ str_mul base (can_i_nmod + 1))
      | Raise e => Raise e
      end
  end.

Definition derive_collapse_alphabet (output_alphabet : string) (can_nmods : list Z)
    : result string :=
  collapse_alphabet_loop output_alphabet can_nmods 0 "".

Definition loading_convolution : string :=
  "Loading convolutional layer with attributes:" +:+ nl +:+ tab +:+
  "in size: {}" +:+ nl +:+ tab +:+ "out size: {}" +:+ nl +:+ tab +:+
  "winlen: {}" +:+ nl +:+ tab +:+ "stride: {}" +:+ nl.

Definition loading_gru : string :=
  "Loading GRU layer with attributes:" +:+ nl +:+ tab +:+ "in size: {}" +:+
  nl +:+ tab +:+ "out size: {}" +:+ nl.

Definition loading_reverse : string :=
  "Loading Reverse GRU layer with attributes:" +:+ nl +:+ tab +:+
  "in size: {}" +:+ nl +:+ tab +:+ "out size: {}" +:+ nl.

Definition loading_flipflop : string :=
  "Loading flip-flop layer with attributes:" +:+ nl +:+ tab +:+
  "in size: {}" +:+ nl +:+ tab +:+ "nbases: {}" +:+ nl.

Definition loading_catmod : string :=
  "Loading modified bases flip-flop layer with attributes:" +:+ nl +:+
  tab +:+ "in size: {}" +:+ nl +:+ tab +:+ "mod bases: {}" +:+ nl.

Definition incompatible_activation : string :=
  "Incompatible convolutional layer activation fucntion " +:+
  "({}) encountered." +:+ nl.

(** The branch on [sublayer['type']] (lines 82-130).  It yields the layer, if
    a branch bound one, and the descriptor that [sublayer] names afterwards
    (the [reverse] branch rebinds it to the inner descriptor). *)
Definition build_layer (sl : sublayer) : io event (option layer * sublayer) :=
  if String.eqb (type sl) "convolution" then
    act ← getitem "activation" (activation sl);
    (if negb (String.eqb act "tanh") then
       emit (Stderr (format incompatible_activation [type sl]));;
       raise (SystemExit 1)
     else mret tt);;
    i ← getitem "insize" (insize sl);
    o ← getitem "size" (size sl);
    w ← getitem "winlen" (winlen sl);
    d ← getitem "stride" (stride sl);
    emit (Stderr (format loading_convolution [pretty i; pretty o; pretty w; pretty d]));;
    l ← new_layer (Convolution i o w d);
    mret (Some l, sl)
  else if String.eqb (type sl) "GruMod" then
    i ← getitem "insize" (insize sl);
    o ← getitem "size" (size sl);
    emit (Stderr (format loading_gru [pretty i; pretty o]));;
    l ← new_layer (GruMod i o);
    mret (Some l, sl)
  else if String.eqb (type sl) "reverse" then
    inner ← getitem "sublayers" (sublayers sl);
    i ← getitem "insize" (insize inner);
    o ← getitem "size" (size inner);
    emit (Stderr (format loading_reverse [pretty i; pretty o]));;
    emit (Construct (GruMod i o));;
    l ← new_layer (Reverse (GruMod i o));
    mret (Some l, inner)
  else if String.eqb (type sl) "GlobalNormTwoState" then
    o ← getitem "size" (size sl);
    nbase ← lift (nbase_flipflop o);
    i ← getitem "insize" (insize sl);
    emit (Stderr (format loading_flipflop [pretty i; pretty nbase]));;
    l ← new_layer (GlobalNormFlipFlop i nbase);
    mret (Some l, sl)
  else if String.eqb (type sl) "GlobalNormTwoStateCatMod" then
    oa ← getitem "output_alphabet" (output_alphabet sl);
    nmods ← getitem "can_nmods" (can_nmods sl);
    ca ← lift (derive_collapse_alphabet oa nmods);
    names ← getitem "modified_base_long_names" (modified_base_long_names sl);
    info ← lift (AlphabetInfo oa ca names);
    i ← getitem "insize" (insize sl);
    emit (Stderr (format loading_catmod [pretty i; repr_list (mod_long_names info)]));;
    l ← new_layer (GlobalNormFlipFlopCatMod i info);
    mret (Some l, sl)
  else mret (None, sl).

Definition parse_sublayer (sl : sublayer) : io event layer :=
  '(bound, sl') ← build_layer sl;
  l ← read_local "layer" bound;
  p ← getitem "params" (params sl');
  set_params l p.

(** The types of the model that the converter does not support:
    [set(layer_types).difference(COMPATIBLE_LAYERS)]. *)
Definition incompatible_types (m : jsn_model) : gset string :=
  list_to_set (type <$> model_sublayers m) ∖ COMPATIBLE_LAYERS.

Definition incompatible_layer : string :=
  "Incompatible layer type(s) ({}) encountered." +:+ nl.

(** [main], from the loaded JSON model on (lines 142-155); [output] is
    [args.output]. *)
Definition main (m : jsn_model) (output : string) : io event unit :=
  (if bool_decide (0 < base.size (incompatible_types m)) then
     emit (Stderr (format incompatible_layer
                     [join ", " (elements (incompatible_types m))]));;
     raise (SystemExit 1)
   else mret tt);;
  network ← io_map parse_sublayer (model_sublayers m);
  emit (TorchSave network output).

End Torch.

End Converter.

(** ** The q-score calibrator ([misc/calibrate_qscores_byread.py]) *)

Module Calibrator.

(** *** numpy on float64 and int64 *)

(** An int64 taken as a float64 ([astype(np.float64)]). *)
Definition float_of_Z (z : Z) : float :=
  let magnitude := PrimFloat.of_uint63 (Uint63.of_Z (Z.abs z)) in
  if (z <? 0)%Z then PrimFloat.opp magnitude else magnitude.

(** int64 arithmetic wraps around. *)
Definition wrap64 (z : Z) : Z :=
  ((z + 2 ^ 63) mod 2 ^ 64 - 2 ^ 63)%Z.

(** A column of a structured array, by dtype. *)
Inductive column :=
| IntCol (l : list Z)
| FloatCol (l : list float)
| StrCol (l : list string).

(** The table [fileio.readtsv] returns: named columns, in file order, all
    of one length. *)
Definition table := list (string * column).

(** What a [print] call is given.  Formatted text is kept as the template
    and its arguments. *)
Inductive value :=
| VInt (z : Z)
| VFloat (x : float)
| VStr (s : string)
| VNone
| VFormat (template : string) (args : list value).

Inductive event :=
| Print (items : list value) (end_ : string)
| PltScatter (x y : list float)
| PltPlot (x y : list float) (label : value)
| PltAxes
| PltTitle (title : string)
| PltSavefig (file : string)
| PltClose.

Definition print (items : list value) : io event unit := emit (Print items nl).

(** [try: body except exc: handler]. *)
Definition try_except {A} (body : io event A) (caught : exn → bool)
    (handler : io event A) : io event A :=
  match outcome body with
  | Ok a => body
  | Raise e =>
      if caught e then IO (trace body ++ trace handler) (outcome handler) else body
  end.

Definition is_ValueError (e : exn) : bool :=
  match e with ValueError => true | _ => false end.

(** [t[name]]: a structured array raises ValueError for a field it lacks. *)
Definition field (t : table) (name : string) : io event column :=
  match list_find (fun kv => kv.1 = name) t with
  | Some (_, (_, c)) => mret c
  | None => raise ValueError
  end.

(** Elementwise [a - b] and [a + b] of two columns of one table. *)
Definition np_arith (fz : Z → Z → Z) (ff : float → float → float)
    (a b : column) : io event column :=
  match a, b with
  | IntCol x, IntCol y => mret (IntCol (zip_with (fun u v => wrap64 (fz u v)) x y))
  | FloatCol x, FloatCol y => mret (FloatCol (zip_with ff x y))
  | IntCol x, FloatCol y => mret (FloatCol (zip_with ff (float_of_Z <$> x) y))
  | FloatCol x, IntCol y => mret (FloatCol (zip_with ff x (float_of_Z <$> y)))
  | _, _ => raise TypeError
  end.

Definition np_sub : column → column → io event column := np_arith Z.sub PrimFloat.sub.
Definition np_add : column → column → io event column := np_arith Z.add PrimFloat.add.

(** [a[a < 0] = np.nan]: NaN cannot be stored in an integer array, which
    numpy reports as ValueError. *)
Definition negative_to_nan (a : column) : io event column :=
  match a with
  | FloatCol l =>
      mret (FloatCol ((fun x => if PrimFloat.ltb x 0 then PrimFloat.nan else x) <$> l))
  | IntCol _ => raise ValueError
  | StrCol _ => raise TypeError
  end.

Definition missing_columns_prefix : string :=
  "Alignment summary file must contain either columns " +:+
  "(read_ids, alignment accuracy, alignment_strand_end, " +:+
  "alignment_strand_start) or " +:+
  "(id, accuracy, reference_end, reference_start, " +:+
  "insertion, deletion  )".

(** The first [try] block (lines 139-145): the table read as a Guppy
    summary. *)
Definition guppy_attempt (t : table) : io event (column * column * column) :=
  read_ids ← field t "read_id";
  accuracies ← field t "alignment_accuracy";
  strand_end ← field t "alignment_strand_end";
  strand_start ← field t "alignment_strand_start";
  alignment_lens ← np_sub strand_end strand_start;
  print [VStr "Interpreted alignment file as Guppy output"];;
  accuracies' ← negative_to_nan accuracies;
  mret (read_ids, accuracies', alignment_lens).

(** The second [try] block (lines 152-160): the table read as a Taiyaki
    summary. *)
Definition taiyaki_attempt (t : table) : io event (column * column * column) :=
  read_ids ← field t "query";
  accuracies ← field t "accuracy";
  reference_end ← field t "reference_end";
  reference_start ← field t "reference_start";
  span ← np_sub reference_end reference_start;
  insertion ← field t "insertion";
  with_insertion ← np_add span insertion;
  deletion ← field t "deletion";
  alignment_lens ← np_sub with_insertion deletion;
  print [VStr "Interpreted alignment file as Taiyaki output"];;
  mret (read_ids, accuracies, alignment_lens).

(** [get_alignment_data], from the table read on (lines 137-170): a
    ValueError of the first attempt leads to the second, a ValueError of the
    second to the final error. *)
Definition get_alignment_data (t : table) : io event (column * column * column) :=
  try_except (guppy_attempt t) is_ValueError
    (try_except (taiyaki_attempt t) is_ValueError
       (raise (Exception (missing_columns_prefix +:+
                          format ". Columns are {}" [repr_list (t.*1)])))).

(** [a[mask]] with a boolean mask, which must be as long as [a]. *)
Fixpoint select {A} (a : list A) (mask : list bool) : list A :=
  match a, mask with
  | x :: a', b :: mask' => if b then x :: select a' mask' else select a' mask'
  | _, _ => []
  end.

Definition np_select {A} (a : list A) (mask : list bool) : io event (list A) :=
  if decide (length a = length mask) then mret (select a mask) else raise IndexError.

(** [np.argmax] of a float64 vector, as numpy scans it: a NaN counts as
    the maximum and ends the scan; otherwise the running maximum moves only
    to a strictly greater entry, so the first occurrence wins. *)
Fixpoint argmax_scan (mp : float) (max_ind i : nat) (rest : list float) : nat :=
  match rest with
  | [] => max_ind
  | x :: rest' =>
      if negb (PrimFloat.leb x mp) then
        if PrimFloat.is_nan x then i else argmax_scan x i (S i) rest'
      else argmax_scan mp max_ind (S i) rest'
  end.

Definition argmax_index (a : list float) : nat :=
  match a with
  | [] => 0
  | x :: rest => if PrimFloat.is_nan x then 0 else argmax_scan x 0 1 rest
  end.

Definition np_argmax (a : list float) : io event nat :=
  match a with
  | [] => raise ValueError
  | _ :: _ => mret (argmax_index a)
  end.

(** [a[i]] for reading. *)
Definition item {A} (a : list A) (i : nat) : io event A :=
  match a !! i with
  | Some x => mret x
  | None => raise IndexError
  end.

(** The arrays and counters [merge_align_fastq_data] updates in its loop. *)
Record merged := Merged {
  fastq_accuracies : list float;
  fastq_alignment_lens : list Z;
  read_not_found : Z;
  more_than_one_alignment : Z }.

(** The body of the loop, for read number [nread] (lines 209-220). *)
Definition merge_read (alignment_ids : list string)
    (alignment_accuracies : list float) (alignment_lens : list Z)
    (st : merged) (nread : nat) (fastq_id : string) : io event merged :=
  let mask := (fun id => String.eqb id fastq_id) <$> alignment_ids in
  accuracies ← np_select alignment_accuracies mask;
  lens ← np_select alignment_lens mask;
  match accuracies with
  | [] =>
      mret (Merged (fastq_accuracies st) (fastq_alignment_lens st)
                   (read_not_found st + 1) (more_than_one_alignment st))
  | [_] =>
      a ← item accuracies 0;
      l ← item lens 0;
      mret (Merged (<[nread := a]> (fastq_accuracies st))
                   (<[nread := l]> (fastq_alignment_lens st))
                   (read_not_found st) (more_than_one_alignment st))
  | _ =>
      loc ← np_argmax accuracies;
      a ← item accuracies loc;
      l ← item lens loc;
      mret (Merged (<[nread := a]> (fastq_accuracies st))
                   (<[nread := l]> (fastq_alignment_lens st))
                   (read_not_found st) (more_than_one_alignment st + 1))
  end.

Fixpoint merge_loop (alignment_ids : list string)
    (alignment_accuracies : list float) (alignment_lens : list Z)
    (st : merged) (nread : nat) (fastq_ids : list string) : io event merged :=
  match fastq_ids with
  | [] => mret st
  | fastq_id :: rest =>
      st' ← merge_read alignment_ids alignment_accuracies alignment_lens
                       st nread fastq_id;
      merge_loop alignment_ids alignment_accuracies alignment_lens st' (S nread) rest
  end.

Definition merge_align_fastq_data (fastq_ids alignment_ids : list string)
    (alignment_accuracies : list float) (alignment_lens : list Z)
    : io event (list float * list Z) :=
  let n_fastqs := length fastq_ids in
  let st0 := Merged (replicate n_fastqs PrimFloat.nan) (replicate n_fastqs (-1)%Z) 0 0 in
  st ← merge_loop alignment_ids alignment_accuracies alignment_lens st0 0 fastq_ids;
  print [VFormat (nl +:+ "{} reads read from fastq.") [VInt (Z.of_nat n_fastqs)]];;
  print [VFormat "    {} not found in alignment summary." [VInt (read_not_found st)]];;
  print [VFormat ("    {} with more than one alignment." +:+ nl)
                 [VInt (more_than_one_alignment st)]];;
  mret (fastq_accuracies st, fastq_alignment_lens st).

(** Elementwise operations on two arrays, which must have one length (the
    arrays of the script always do; numpy's stretching of a one-element
    array is not modelled). *)
Definition np_zip {A B C} (f : A → B → C) (a : list A) (b : list B)
    : io event (list C) :=
  if decide (length a = length b) then mret (zip_with f a b) else raise ValueError.

(** [filter_data] (lines 317-334). *)
Definition filter_data (accuracies fastqscores : list float)
    (fastq_lens alignment_lens : list Z) (min_coverage min_fastqscore : float)
    : io event (list float * list float) :=
  let f := (fun a => negb (PrimFloat.is_nan a)) <$> accuracies in
  coverage_fraction ← np_zip PrimFloat.div (float_of_Z <$> alignment_lens)
                                           (float_of_Z <$> fastq_lens);
  let g := (fun c => PrimFloat.ltb min_coverage c) <$> coverage_fraction in
  let h := (fun q => PrimFloat.leb min_fastqscore q) <$> fastqscores in
  print [VStr "Total number of reads = "; VInt (Z.of_nat (length accuracies))];;
  kept_f ← np_select accuracies f;
  print [VStr "    After removing those not aligned:"; VInt (Z.of_nat (length kept_f))];;
  fg ← np_zip andb f g;
  kept_fg ← np_select accuracies fg;
  print [VFormat "    After also removing coverage < {:3.2f}: {}"
                 [VFloat min_coverage; VInt (Z.of_nat (length kept_fg))]];;
  fgh ← np_zip andb fg h;
  kept_fgh ← np_select accuracies fgh;
  print [VFormat "    After also removing fastq score < {:3.1f}: {}"
                 [VFloat min_fastqscore; VInt (Z.of_nat (length kept_fgh))]];;
  kept_scores ← np_select fastqscores fgh;
  mret (kept_fgh, kept_scores).

(** The command line after [parse_args]. *)
Record args := Args {
  alignment_summary : option string;
  coverage_threshold : float;
  max_alignment_score : float;
  min_fastqscore : float;
  fastq : option string;
  input_directory : option string;
  maxreads : option Z;
  plot_title : option string;
  plot_filename : string }.

(** The lists [read_fastqs] appends to. *)
Record fastq_lists := FastqLists {
  read_id_list : list string;
  mean_qscore_list : list (option float);
  length_list : list Z }.

(** [os.path.join(a, b)] on POSIX. *)
Definition os_path_join (a b : string) : string :=
  if startswith "/" b then b
  else if String.eqb a "" || endswith a "/" then a +:+ b
  else a +:+ "/" +:+ b.

(** [np.min] and [np.max]: a NaN propagates, an empty array is an error. *)
Definition np_extremum (better : float → float → bool) (a : list float)
    : io event float :=
  match a with
  | [] => raise ValueError
  | x :: rest =>
      mret (foldl (fun best y =>
                     if PrimFloat.is_nan best then best
                     else if PrimFloat.is_nan y then y
                     else if better y best then y else best) x rest)
  end.

Definition np_min : list float → io event float := np_extremum PrimFloat.ltb.
Definition np_max : list float → io event float :=
  np_extremum (fun y best => PrimFloat.ltb best y).

Section World.

(** The libraries and the file system, taken as given: numpy's power,
    logarithm and mean on float64, Biopython's fastq parser (read id and
    phred qualities of every record of a file), the robust linear fit of
    statsmodels (the fitted parameters), the directory listing and the
    table reader of the toolkit. *)
Variable np_power : float → float → float.
Variable np_log10 : float → float.
Variable np_mean : list float → float.
Variable SeqIO_parse : string → result (list (string * list Z)).
Variable sm_RLM_fit : list float → list float → result (list float).
Variable os_listdir : string → result (list string).
Variable fileio_readtsv : string → result table.

(** [fastq_file_qscore] (lines 66-69). *)
Definition fastq_file_qscore (qvector : list Z) : float :=
  let p := (fun q => np_power 10 (PrimFloat.div (PrimFloat.opp (float_of_Z q)) 10))
             <$> qvector in
  let e := np_mean p in
  PrimFloat.mul (PrimFloat.opp 10) (np_log10 e).

Definition reached (maxreads : option Z) (st : fastq_lists) : bool :=
  match maxreads with
  | Some n => bool_decide (n ≤ Z.of_nat (length (read_id_list st)))%Z
  | None => false
  end.

(** The body of the inner loop of [read_fastqs] up to the test for a dot
    (lines 94-103).  A file is parsed as a whole before its records are
    used. *)
Definition read_record (reads_per_dot : Z) (st : fastq_lists)
    (record : string * list Z) : io event fastq_lists :=
  let scores := record.2 in
  let mean_q := if bool_decide (0 < length scores)
                then Some (fastq_file_qscore scores) else None in
  let st' := FastqLists (read_id_list st ++ [record.1])
                        (mean_qscore_list st ++ [mean_q])
                        (length_list st ++ [Z.of_nat (length scores)]) in
  (if bool_decide (reads_per_dot = 0)%Z then raise ZeroDivisionError else mret tt);;
  (if bool_decide ((Z.of_nat (length (read_id_list st')) + 1) mod reads_per_dot = 0)%Z
   then emit (Print [VStr "."] "") else mret tt);;
  mret st'.

Fixpoint read_records (maxreads : option Z) (reads_per_dot : Z)
    (st : fastq_lists) (records : list (string * list Z)) : io event fastq_lists :=
  match records with
  | [] => mret st
  | record :: rest =>
      st' ← read_record reads_per_dot st record;
      if reached maxreads st' then mret st'
      else read_records maxreads reads_per_dot st' rest
  end.

Fixpoint read_files (maxreads : option Z) (reads_per_dot : Z)
    (st : fastq_lists) (fastqlist : list string) : io event fastq_lists :=
  match fastqlist with
  | [] => mret st
  | fastqfile :: rest =>
      records ← lift (SeqIO_parse fastqfile);
      st' ← read_records maxreads reads_per_dot st records;
      if reached maxreads st' then mret st'
      else read_files maxreads reads_per_dot st' rest
  end.

Definition read_fastqs (fastqlist : list string) (maxreads : option Z)
    (reads_per_dot : Z) : io event (list string * list (option float) * list Z) :=
  print [VFormat "Printing one dot for every {} reads." [VInt reads_per_dot]];;
  st ← read_files maxreads reads_per_dot (FastqLists [] [] []) fastqlist;
  print [VStr ""];;
  mret (read_id_list st, mean_qscore_list st, length_list st).

(** [calculate_regression]: the intercept and slope of the robust fit. *)
Definition calculate_regression (mean_qscores calc_qscores : list float)
    : io event (float * float) :=
  params ← lift (sm_RLM_fit calc_qscores mean_qscores);
  match params with
  | [c; m] => mret (c, m)
  | _ => raise ValueError
  end.

(** [single_read_accuracy_scatter] (lines 270-287). *)
Definition single_read_accuracy_scatter (accuracies meanqs : list float)
    (max_alignment_score : float) : io event (float * float) :=
  let y := (fun a => PrimFloat.mul (PrimFloat.opp 10)
                       (np_log10 (PrimFloat.sub 1 a))) <$> accuracies in
  let y := (fun v => if PrimFloat.ltb max_alignment_score v
                     then max_alignment_score else v) <$> y in
  let x := meanqs in
  emit (PltScatter x y);;
  '(c, m) ← calculate_regression x y;
  lo ← np_min x;
  hi ← np_max x;
  let xx := [lo; hi] in
  let yy := (fun v => PrimFloat.add c (PrimFloat.mul m v)) <$> xx in
  emit (PltPlot xx yy (VFormat "slope={:3.2f} intercept={:3.2f}" [VFloat m; VFloat c]));;
  emit (PltPlot xx xx (VStr "y=x"));;
  emit PltAxes;;
  mret (m, c).

(** The columns handed to [merge_align_fastq_data]: the join is modelled for
    string identifiers, float64 accuracies (an integer accuracy is stored
    into the float64 result as its float) and int64 lengths.  A column of
    another dtype ends the modelled run with TypeError. *)
Definition as_ids (c : column) : io event (list string) :=
  match c with StrCol l => mret l | _ => raise TypeError end.
Definition as_floats (c : column) : io event (list float) :=
  match c with
  | FloatCol l => mret l
  | IntCol l => mret (float_of_Z <$> l)
  | StrCol _ => raise TypeError
  end.
Definition as_ints (c : column) : io event (list Z) :=
  match c with IntCol l => mret l | _ => raise TypeError end.

(** A read without bases has no mean q-score, and [None] cannot be
    compared with the minimum score. *)
Definition as_scores (l : list (option float)) : io event (list float) :=
  io_map (fun o => match o with Some q => mret q | None => raise TypeError end) l.

(** The script body (lines 338-394).  [fastqlist] starts as [None];
    [alignment_summary_file] is a global that only two of the branches
    assign. *)
Definition main (a : args) : io event unit :=
  print [VStr "Calculating shift and scale parameters to calibrate per-read"];;
  print [VStr "accuracy estimates from q scores."];;
  '(fastqlist, alignment_summary_file) ←
    match input_directory a with
    | Some dir =>
        files ← lift (os_listdir dir);
        let fastqlist := os_path_join dir <$> filter (fun fi => endswith fi ".fastq") files in
        (if bool_decide (length fastqlist = 0)
         then raise (Exception (format "No fastq files found in {}" [dir]))
         else print [VFormat "Getting q scores for {} fastq files from {}"
                             [VInt (Z.of_nat (length fastqlist)); VStr dir]]);;
        mret (Some fastqlist, Some (os_path_join dir "alignment_summary.txt"))
    | None => mret (None, None)
    end;
  fastqlist ←
    match fastq a with
    | Some file =>
        print [VStr "Command-line argument fastq overrides directory list"];;
        print [VFormat "Calculating average q scores for {}" [VStr file]];;
        mret (Some [file])
    | None => mret fastqlist
    end;
  alignment_summary_file ←
    match alignment_summary a with
    | Some file =>
        print [VStr "Using alignment summary file at "; VStr file];;
        mret (Some file)
    | None => mret alignment_summary_file
    end;
  fastqlist ←
    match fastqlist with
    | Some l => mret l
    | None => raise (Exception ("You must supply a directory containing " +:+
                                "fastqs or the path to a fastq file"))
    end;
  '(fastq_ids, fastq_meanqs, fastq_lens) ← read_fastqs fastqlist (maxreads a) 100;
  file ← read_global "alignment_summary_file" alignment_summary_file;
  t ← lift (fileio_readtsv file);
  '(align_ids, align_accuracies, align_lens) ← get_alignment_data t;
  ids ← as_ids align_ids;
  accs ← as_floats align_accuracies;
  lens ← as_ints align_lens;
  '(fastq_accuracies, fastq_align_lens) ←
    merge_align_fastq_data fastq_ids ids accs lens;
  scores ← as_scores fastq_meanqs;
  '(fastq_accuracies, fastq_meanqs) ←
    filter_data fastq_accuracies scores fastq_lens fastq_align_lens
                (coverage_threshold a) (min_fastqscore a);
  '(slope, intercept) ←
    single_read_accuracy_scatter fastq_accuracies fastq_meanqs (max_alignment_score a);
  print [VStr (nl +:+ nl +:+ "Best-fit:");
         match plot_title a with Some title => VStr title | None => VNone end];;
  print [VFormat "Best-fit slope (qscore_scale) = {:3.4f}" [VFloat slope]];;
  print [VFormat "Best-fit shift (qscore_shift) = {:3.4f}" [VFloat intercept]];;
  match plot_title a with Some title => emit (PltTitle title) | None => mret tt end;;
  print [VFormat (nl +:+ "Saving plot to {}") [VStr (plot_filename a)]];;
  emit (PltSavefig (plot_filename a));;
  emit PltClose.

End World.

(** *** The two schemas of an alignment summary *)

Definition primary_columns : list string :=
  ["read_id"; "alignment_accuracy"; "alignment_strand_end"; "alignment_strand_start"].

Definition secondary_columns : list string :=
  ["query"; "accuracy"; "reference_end"; "reference_start"; "insertion"; "deletion"].

(** The table has no column of this name. *)
Definition lacks (t : table) (name : string) : Prop :=
  list_find (fun kv => kv.1 = name) t = None.

(** The column of this name, if the table has it, holds numbers. *)
Definition numeric (t : table) (name : string) : Prop :=
  ∀ i l, list_find (fun kv => kv.1 = name) t = Some (i, (name, StrCol l)) → False.

(** *** The join, in terms of alignment records *)

(** A row of the alignment summary. *)
Record alignment := Alignment {
  alignment_id : string;
  alignment_accuracy : float;
  aligned_length : Z }.

(** The records of a read, in the order of the summary. *)
Definition matches_of (fastq_id : string) (records : list alignment) : list alignment :=
  List.filter (fun r => String.eqb (alignment_id r) fastq_id) records.

(** What the loop leaves at the position of a read with these records. *)
Definition chosen (ms : list alignment) : float * Z :=
  match ms with
  | [] => (PrimFloat.nan, (-1)%Z)
  | [r] => (alignment_accuracy r, aligned_length r)
  | _ :: _ :: _ =>
      match ms !! argmax_index (alignment_accuracy <$> ms) with
      | Some r => (alignment_accuracy r, aligned_length r)
      | None => (PrimFloat.nan, (-1)%Z)
      end
  end.

(** Reads without a record, and reads with several. *)
Definition not_found (fastq_ids : list string) (records : list alignment) : nat :=
  length (List.filter (fun id => bool_decide (length (matches_of id records) = 0)) fastq_ids).
Definition several (fastq_ids : list string) (records : list alignment) : nat :=
  length (List.filter (fun id => bool_decide (2 ≤ length (matches_of id records))%nat) fastq_ids).

(** [loc] is the first position of the maximum of [a]. *)
Definition first_maximum (a : list float) (loc : nat) : Prop :=
  ∃ x, a !! loc = Some x
       ∧ (∀ j y, a !! j = Some y → PrimFloat.leb y x = true)
       ∧ (∀ j y, (j < loc)%nat → a !! j = Some y → PrimFloat.ltb y x = true).

(** [loc] is the first position of a NaN in [a]. *)
Definition first_nan (a : list float) (loc : nat) : Prop :=
  ∃ x, a !! loc = Some x
       ∧ PrimFloat.is_nan x = true
       ∧ (∀ j y, (j < loc)%nat → a !! j = Some y → PrimFloat.is_nan y = false).

(** A float64 that is not NaN, on the primitive type and on its
    specification. *)
Definition number (x : float) : Prop := PrimFloat.is_nan x = false.

Definition sf_is_nan (s : spec_float) : bool :=
  match s with S754_nan => true | _ => false end.

(** What the regression produces: the scatter plot with its lines and
    decorations, the saved figure, and the lines reporting the fit. *)
Definition regression_output (e : event) : bool :=
  match e with
  | Print (VStr text :: _) _ => re_search "Best-fit" text
  | Print (VFormat template _ :: _) _ => re_search "Best-fit" template
  | Print _ _ => false
  | PltScatter _ _ | PltPlot _ _ _ | PltAxes | PltTitle _ | PltSavefig _ | PltClose => true
  end.

(** An event that is no output of the regression. *)
Definition quiet (e : event) : Prop := regression_output e = false.

(** *** Filtering, as the specification words it *)








End Calibrator.

(** ** Sample inputs *)

Module Sample.
Import Converter.

(** A runtime for running the converter on sample models: tensors keep
    their float64 entries, a recurrent cell has the four parameters of a
    GRU, every other layer a weight and a bias, and loading a state
    dictionary stores it. *)
Definition keep_float64 (x : float) : float := x.

Definition fresh_state_dict (k : layer_kind) : list (string * ndarray) :=
  match k with
  | GruMod _ _ | Reverse _ =>
      [("cudnn_gru.weight_ih_l0", Arr []); ("cudnn_gru.weight_hh_l0", Arr []);
       ("cudnn_gru.bias_ih_l0", Arr []); ("cudnn_gru.bias_hh_l0", Arr [])]
  | _ => [("linear.weight", Arr []); ("linear.bias", Arr [])]
  end.

Definition store_state_dict (l : layer) (od : list (string * ndarray)) : result layer :=
  Ok (Layer (kind l) od).

Definition four_bases (nstate : Z) : result Z := Ok 4%Z.

Definition plain_alphabet (a c : string) (names : list string) : result alphabet_info :=
  Ok (AlphabetInfoObj a c names).

Definition descriptor (ty : string) (act : option string)
    (p : gmap string ndarray) : sublayer :=
  Sublayer ty act (Some 4%Z) (Some 8%Z) (Some 3%Z) (Some 2%Z)
           None None None None (Some p).

Definition dense_params : gmap string ndarray :=
  <["W" := Arr [Arr [Num 1; Num 2]]]> (<["b" := Arr [Num 3]]> ∅).

Definition gru_params : gmap string ndarray :=
  <["iW" := Arr [Arr [Arr [Num 1]]; Arr [Arr [Num 2]]; Arr [Arr [Num 3]]]]>
  (<["sW" := Arr [Arr [Arr [Num 4]]; Arr [Arr [Num 5]]; Arr [Arr [Num 6]]]]>
  (<["b" := Arr [Arr [Num 7]; Arr [Num 8]; Arr [Num 9]]]> ∅)).

(** The parameters of a GRU as the runtime lists them, the hidden-path bias
    initialised to one half. *)
Definition gru_state_dict : list (string * ndarray) :=
  [("cudnn_gru.weight_ih_l0", Arr [Arr [Num 0]; Arr [Num 0]; Arr [Num 0]]);
   ("cudnn_gru.weight_hh_l0", Arr [Arr [Num 0]; Arr [Num 0]; Arr [Num 0]]);
   ("cudnn_gru.bias_ih_l0", Arr [Num 0; Num 0; Num 0]);
   ("cudnn_gru.bias_hh_l0", Arr [Num 0.5; Num 0.5; Num 0.5])].

Definition relu_convolution : sublayer :=
  descriptor "convolution" (Some "relu") dense_params.

Definition bogus_model : jsn_model :=
  JsnModel [descriptor "convolution" (Some "tanh") dense_params;
            descriptor "bogus" None ∅;
            descriptor "GruMod" None gru_params].

(** A modified-base layer over the four canonical bases alone, the first of
    them with one modification. *)
Definition catmod_ACGT : sublayer :=
  Sublayer "GlobalNormTwoStateCatMod" None (Some 4%Z) (Some 40%Z) None None
           (Some "ACGT") (Some [1; 0; 0; 0]%Z) (Some ["6mA"]) None (Some dense_params).

End Sample.

Module CalibratorSample.
Import Calibrator.


(** One read with two alignments, the first of them without accuracy. *)
Definition two_alignments_ids : list string := ["read1"; "read1"].
Definition two_alignments_accuracies : list float := [PrimFloat.nan; 0.9%float].
Definition two_alignments_lens : list Z := [0; 100]%Z.

(** A world for running the script: a fastq file holds one read of three
    bases, there is no directory and no table to read, and the numeric
    routines are stand-ins (the runs below do not depend on them). *)
Definition power (x y : float) : float := x.
Definition log10 (x : float) : float := x.
Definition mean (l : list float) : float := default PrimFloat.nan (head l).
Definition one_read (file : string) : result (list (string * list Z)) :=
  Ok [("read1", [30; 31; 32]%Z)].
Definition no_fit (y x : list float) : result (list float) :=
  Raise (LibraryError "statsmodels").
Definition no_directory (dir : string) : result (list string) :=
  Raise (LibraryError "os.listdir").
Definition no_table (file : string) : result table :=
  Raise (LibraryError "fileio.readtsv").

Definition fastq_only : args :=
  Args None 0.8 40 7 (Some "reads.fastq") None None None "qscore_calibration.png".

Definition table_as_message_asks : table :=
  [("id", StrCol ["read1"]); ("accuracy", FloatCol [0.9%float]);
   ("reference_end", IntCol [150%Z]); ("reference_start", IntCol [50%Z]);
   ("insertion", IntCol [3%Z]); ("deletion", IntCol [2%Z])].

End CalibratorSample.

Module Cases.
Import Converter.

(** A layer with a weight and a parameter named [scale], which no rule of
    the remapper knows. *)
Definition scaled_layer : layer :=
  Layer (GruMod 4 8)
        [("linear.weight", Arr [Arr [Num 0; Num 0]]); ("scale", Arr [Num 1])].

(** Writing the checkpoint. *)
Definition is_save (e : event) : bool :=
  match e with TorchSave _ _ => true | _ => false end.

Definition saves_nothing (tr : list event) : Prop :=
  Forall (fun e => is_save e = false) tr.

(** A model of a convolution followed by a recurrent layer. *)
Definition two_layer_model : jsn_model :=
  JsnModel [Sample.descriptor "convolution" (Some "tanh") Sample.dense_params;
            Sample.descriptor "GruMod" None Sample.gru_params].


(** The number of symbols an output alphabet needs: every canonical base
    and its modified variants. *)
Definition alphabet_size (can_nmods : list Z) : Z :=
  foldr (fun n total => (n + 1 + total)%Z) 0%Z can_nmods.

(** A recurrent cell wrapped for reversed time, described twice: the outer
    descriptors differ, the cell is the same. *)
Definition reverse_bare : sublayer :=
  Sublayer "reverse" None None None None None None None None
           (Some (Sample.descriptor "GruMod" None Sample.gru_params)) None.
Definition reverse_decorated : sublayer :=
  Sublayer "reverse" (Some "tanh") (Some 99%Z) (Some 99%Z) None None None None None
           (Some (Sample.descriptor "GruMod" None Sample.gru_params))
           (Some Sample.dense_params).

(** The keys of the JSON parameters that the pattern rules read. *)
Definition rule_keys : list string := ["iW"; "sW"; "b"; "W"].

End Cases.

Module CalibratorCases.
Import Calibrator.

(** What [read_fastqs] records of a fastq record: its identifier, its mean
    quality score unless it has no bases, and its number of bases. *)
Definition score_of (qscore : list Z → float) (record : string * list Z)
    : option float :=
  if bool_decide (0 < length record.2) then Some (qscore record.2) else None.

Definition bases_of (record : string * list Z) : Z := Z.of_nat (length record.2).

(** The lists of [read_fastqs] after some more records. *)
Definition extended (qscore : list Z → float) (st : fastq_lists)
    (records : list (string * list Z)) : fastq_lists :=
  FastqLists (read_id_list st ++ records.*1)
             (mean_qscore_list st ++ (score_of qscore <$> records))
             (length_list st ++ (bases_of <$> records)).

(** The three lists grow together, and with a maximum of [n] reads they
    stop at [n], or at one read when [n] is not positive. *)
Definition within (maxreads : option Z) (st : fastq_lists) : Prop :=
  length (mean_qscore_list st) = length (read_id_list st)
  ∧ length (length_list st) = length (read_id_list st)
  ∧ ∀ n, maxreads = Some n → (Z.of_nat (length (read_id_list st)) ≤ Z.max 1 n)%Z.

Definition below (maxreads : option Z) (st : fastq_lists) : Prop :=
  length (mean_qscore_list st) = length (read_id_list st)
  ∧ length (length_list st) = length (read_id_list st)
  ∧ ∀ n, maxreads = Some n → (Z.of_nat (length (read_id_list st)) < Z.max 1 n)%Z.

(** Two fastq files, the first with a read without bases. *)
Definition two_files (file : string) : result (list (string * list Z)) :=
  if String.eqb file "a.fastq"
  then Ok [("read1", [30; 31]%Z); ("read2", [])]
  else Ok [("read3", [20]%Z)].

(** Stand-ins for numpy that are right where IEEE 754 fixes the result:
    a power with exponent zero, the logarithm of one, the mean of equal
    numbers. *)
Definition power_at_zero (x y : float) : float :=
  if PrimFloat.eqb y 0 then 1%float else PrimFloat.nan.
Definition log10_at_one (x : float) : float :=
  if PrimFloat.eqb x 1 then 0%float else PrimFloat.nan.
Definition mean_of_equal (l : list float) : float := default PrimFloat.nan (head l).

(** The empirical scores [single_read_accuracy_scatter] plots and fits
    (lines 270-271). *)
Definition empirical (np_log10 : float → float) (max_alignment_score : float)
    (accuracies : list float) : list float :=
  (fun v => if PrimFloat.ltb max_alignment_score v then max_alignment_score else v)
    <$> ((fun a => PrimFloat.mul (PrimFloat.opp 10) (np_log10 (PrimFloat.sub 1 a)))
           <$> accuracies).

(** A directory of two files, neither a fastq file; a fit of intercept 1
    and slope 2. *)
Definition other_files (dir : string) : result (list string) :=
  Ok ["alignment_summary.txt"; "reads.fastq.gz"].
Definition fit_one_two (y x : list float) : result (list float) :=
  Ok [1%float; 2%float].

Definition no_input : args :=
  Args (Some "summary.txt") 0.8 40 7 None None None None "qscore_calibration.png".
Definition directory_and_fastq : args :=
  Args None 0.8 40 7 (Some "reads.fastq") (Some "run1") None None
       "qscore_calibration.png".

(** The column a table holds under a name. *)
Definition column_of (t : table) (name : string) : option column :=
  (fun found => found.2.2) <$> list_find (fun kv => kv.1 = name) t.

(** What [get_alignment_data] does to the accuracies of a Guppy summary. *)
Definition missing_if_negative (x : float) : float :=
  if PrimFloat.ltb x 0 then PrimFloat.nan else x.

(** A Guppy summary of three reads, the second unaligned, which also has
    an [accuracy] column. *)
Definition guppy_table : table :=
  [("read_id", StrCol ["r1"; "r2"; "r3"]);
   ("alignment_accuracy", FloatCol [0.9; -1; 0.85]%float);
   ("alignment_strand_start", IntCol [10; -1; 0]%Z);
   ("alignment_strand_end", IntCol [510; -1; 300]%Z);
   ("accuracy", FloatCol [0; 0; 0]%float)].

(** A Taiyaki summary of two alignments. *)
Definition taiyaki_table : table :=
  [("query", StrCol ["r1"; "r2"]);
   ("accuracy", FloatCol [0.9; -1]%float);
   ("reference_start", IntCol [100; 7]%Z);
   ("reference_end", IntCol [600; 407]%Z);
   ("insertion", IntCol [12; 3]%Z);
   ("deletion", IntCol [20; 5]%Z)].

End CalibratorCases.

(** ** Strings *)

Example format_fills_fields :
  format "a {} b {}." ["x"; "yz"] = "a x b yz.".
Proof. reflexivity. Qed.

Example re_search_inside : re_search "bias_hh" "cudnn_gru.bias_hh_l0" = true.
Proof. reflexivity. Qed.

Example str_getitem_out_of_range : str_getitem "ACGT" 4 = Raise IndexError.
Proof. reflexivity. Qed.

Lemma string_app_empty (s : string) : s +:+ "" = s.
Proof.
  induction s as [|c s IH]; [done|].
  change (String c (s +:+ "") = String c s). by rewrite IH.
Qed.

Lemma format_columns (listed : string) :
  format ". Columns are {}" [listed] = ". Columns are " +:+ listed.
Proof.
  change (format ". Columns are {}" [listed])
    with (". Columns are " +:+ (listed +:+ "")).
  by rewrite string_app_empty.
Qed.

(** ** Running computations *)

Section Runs.
Context {E : Type}.

Lemma io_bind_ret {A B} (f : A → io E B) (a : A) : mret a ≫= f = f a.
Proof. unfold mret, io_mret, mbind, io_mbind, io_bind. cbn. by destruct (f a). Qed.

Lemma io_bind_emit {B} (e : E) (k : unit → io E B) :
  emit e ≫= k = IO (e :: trace (k tt)) (outcome (k tt)).
Proof. reflexivity. Qed.

Lemma trace_bind {A B} (f : A → io E B) (m : io E A) :
  trace (m ≫= f)
  = (trace m ++ match outcome m with Ok a => trace (f a) | Raise _ => [] end)%list.
Proof.
  unfold mbind, io_mbind, io_bind. destruct (outcome m); cbn; [done|].
  by rewrite app_nil_r.
Qed.

Lemma outcome_bind {A B} (f : A → io E B) (m : io E A) :
  outcome (m ≫= f)
  = match outcome m with Ok a => outcome (f a) | Raise e => Raise e end.
Proof. unfold mbind, io_mbind, io_bind. by destruct (outcome m). Qed.

Lemma io_bind_assoc {A B C} (m : io E A) (f : A → io E B) (g : B → io E C) :
  (m ≫= f) ≫= g = m ≫= (fun a => f a ≫= g).
Proof.
  unfold mbind, io_mbind, io_bind. destruct m as [tr [a|e]]; cbn; [|done].
  destruct (f a) as [tr' [b|e]]; cbn; [|done].
  by rewrite app_assoc.
Qed.

Lemma io_bind_raise {A B} (e : exn) (k : A → io E B) : raise e ≫= k = raise e.
Proof. reflexivity. Qed.

(** A run followed by a step that always raises [e]. *)
Lemma io_bind_always_raises {A B} (m : io E A) (k : A → io E B) (e : exn) :
  (∀ a, k a = raise e) →
  m ≫= k = IO (trace m) (match outcome m with Ok _ => Raise e | Raise e' => Raise e' end).
Proof.
  intros Hk. unfold mbind, io_mbind, io_bind.
  destruct m as [tr [a|e']]; cbn; [|done].
  rewrite Hk. cbn. by rewrite app_nil_r.
Qed.

Lemma io_bind_emit_eq {B} (e : E) (k : unit → io E B) (tr : list E) (r : result B) :
  k tt = IO tr r → emit e ≫= k = IO (e :: tr) r.
Proof. intros Hk. rewrite io_bind_emit, Hk. reflexivity. Qed.

Lemma Forall_trace_bind {A B} (P : E → Prop) (m : io E A) (f : A → io E B) :
  Forall P (trace m) → (∀ a, Forall P (trace (f a))) → Forall P (trace (m ≫= f)).
Proof.
  intros Hm Hf. rewrite trace_bind. apply Forall_app. split; [done|].
  destruct (outcome m); [apply Hf|constructor].
Qed.

End Runs.

(** ** Arrays *)

Section Arrays.
Import Calibrator.

Lemma select_fmap {A B} (f : A → B) (p : A → bool) (l : list A) :
  select (f <$> l) (p <$> l) = f <$> List.filter p l.
Proof.
  induction l as [|x l IH]; [done|]. cbn. destruct (p x); cbn; by rewrite IH.
Qed.

Lemma np_select_fmap {A B} (f : A → B) (p : A → bool) (l : list A) :
  np_select (f <$> l) (p <$> l) = mret (f <$> List.filter p l).
Proof.
  unfold np_select. rewrite decide_True by (by rewrite !length_fmap).
  by rewrite select_fmap.
Qed.



Lemma item_fmap {A B} (f : A → B) (l : list A) (i : nat) (x : A) :
  l !! i = Some x → item (f <$> l) i = mret (f x).
Proof. intros Hx. unfold item. by rewrite list_lookup_fmap, Hx. Qed.

Lemma array_keep_next {A} (handled : list A) (d : A) (n : nat) :
  handled ++ replicate (S n) d = (handled ++ [d]) ++ replicate n d.
Proof. by rewrite <- app_assoc. Qed.

Lemma array_insert_next {A} (handled : list A) (d v : A) (n : nat) :
  <[length handled := v]> (handled ++ replicate (S n) d)
  = (handled ++ [v]) ++ replicate n d.
Proof.
  rewrite insert_app_r_alt by lia. rewrite Nat.sub_diag. by rewrite <- app_assoc.
Qed.

End Arrays.

(** ** The parameter remapper *)

Section SetParams.
Import Converter.
Variable to_float32 : float → float.

Abbreviation guess_params := (guess_params to_float32).
Abbreviation set_params_step := (set_params_step to_float32).
Abbreviation set_params_loop := (set_params_loop to_float32).

(** A name that is a key of the JSON parameters only sets [jsn_name]: the
    array under that key is not read. *)
Lemma guess_params_exact_key jsn_params st layer_name a :
  jsn_params !! layer_name = Some a →
  guess_params jsn_params st layer_name
  = IO [] (Ok (Locals (Some layer_name) (jsn_layer_params st) (params_od st))).
Proof.
  intros Hkey. unfold Converter.guess_params, contains.
  rewrite bool_decide_eq_true_2 by (rewrite Hkey; eauto).
  reflexivity.
Qed.

(** So the parameter is given whatever the previous iteration left in
    [jsn_layer_params]. *)
Lemma set_params_step_exact_key jsn_params st layer_name a previous :
  jsn_params !! layer_name = Some a →
  jsn_layer_params st = Some previous →
  set_params_step jsn_params st layer_name
  = IO [] (Ok (Locals (Some layer_name) (Some previous)
                      (od_set layer_name previous (params_od st)))).
Proof.
  intros Hkey Hprev. unfold Converter.set_params_step.
  rewrite (guess_params_exact_key _ _ _ _ Hkey).
  cbn. rewrite Hprev. reflexivity.
Qed.

(** And on the first iteration the loop stops with an unbound local. *)
Lemma set_params_step_exact_key_first jsn_params st layer_name a :
  jsn_params !! layer_name = Some a →
  jsn_layer_params st = None →
  set_params_step jsn_params st layer_name
  = IO [] (Raise (UnboundLocalError "jsn_layer_params")).
Proof.
  intros Hkey Hprev. unfold Converter.set_params_step.
  rewrite (guess_params_exact_key _ _ _ _ Hkey).
  cbn. rewrite Hprev. reflexivity.
Qed.

(** C1 (fails on the code).  For a layer whose parameters are named [W] and
    [b], the very keys of the JSON parameters, the exact match assigns
    nothing: the loop stops with UnboundLocalError on [W]; and when a
    pattern rule ran before ([linear.weight], taken from [W]), the exactly
    matching [b] receives that earlier array, not the array stored under
    [b]. *)
Theorem set_params_exact_key_not_used :
  set_params_loop Sample.dense_params initial_locals
    [("W", Arr [Arr [Num 0; Num 0]]); ("b", Arr [Num 0])]
  = IO [] (Raise (UnboundLocalError "jsn_layer_params"))
  ∧ params_od <$> outcome_value (set_params_loop Sample.dense_params initial_locals
      [("linear.weight", Arr [Arr [Num 0; Num 0]]); ("b", Arr [Num 0])])
    = Some [("linear.weight", Arr [Arr [Num (to_float32 1); Num (to_float32 2)]]);
            ("b", Arr [Arr [Num (to_float32 1); Num (to_float32 2)]])]
  ∧ Sample.dense_params !! "b" = Some (Arr [Num 3]).
Proof. split; [|split]; vm_compute; reflexivity. Qed.

(** A hidden-path recurrent bias that is not a key of the JSON parameters
    and falls through to its own branch leaves the locals as they were. *)
Lemma guess_params_bias_hh jsn_params st layer_name :
  jsn_params !! layer_name = None →
  re_search "weight_ih" layer_name = false →
  re_search "weight_hh" layer_name = false →
  re_search "bias_ih" layer_name = false →
  re_search "bias_hh" layer_name = true →
  guess_params jsn_params st layer_name = IO [] (Ok st).
Proof.
  intros Hkey Hih Hhh Hbi Hbh. unfold Converter.guess_params, contains.
  rewrite bool_decide_eq_false_2 by (rewrite Hkey; intros [? ?]; discriminate).
  rewrite Hih, Hhh, Hbi, Hbh. reflexivity.
Qed.

(** Hence line 69 stores under its name the array of the parameter handled
    before it. *)
Lemma set_params_step_bias_hh jsn_params st layer_name previous :
  jsn_params !! layer_name = None →
  re_search "weight_ih" layer_name = false →
  re_search "weight_hh" layer_name = false →
  re_search "bias_ih" layer_name = false →
  re_search "bias_hh" layer_name = true →
  jsn_layer_params st = Some previous →
  set_params_step jsn_params st layer_name
  = IO [] (Ok (Locals (jsn_name st) (Some previous)
                      (od_set layer_name previous (params_od st)))).
Proof.
  intros Hkey Hih Hhh Hbi Hbh Hprev. unfold Converter.set_params_step.
  rewrite guess_params_bias_hh by assumption.
  cbn. rewrite Hprev. reflexivity.
Qed.

(** C2 (fails on the code).  On a GRU whose hidden-path bias is one half
    everywhere, with JSON parameters [iW], [sW] and [b], the hidden-path
    bias ends up as the concatenated [b], the array just built for the
    input-path bias: neither its existing value nor zero.  A layer whose
    only parameter is such a bias stops the loop with UnboundLocalError. *)
Theorem set_params_bias_hh_left_over :
  params_od <$> outcome_value
    (set_params_loop Sample.gru_params initial_locals Sample.gru_state_dict)
  = Some [("cudnn_gru.weight_ih_l0",
           Arr [Arr [Num (to_float32 1)]; Arr [Num (to_float32 2)]; Arr [Num (to_float32 3)]]);
          ("cudnn_gru.weight_hh_l0",
           Arr [Arr [Num (to_float32 4)]; Arr [Num (to_float32 5)]; Arr [Num (to_float32 6)]]);
          ("cudnn_gru.bias_ih_l0",
           Arr [Num (to_float32 7); Num (to_float32 8); Num (to_float32 9)]);
          ("cudnn_gru.bias_hh_l0",
           Arr [Num (to_float32 7); Num (to_float32 8); Num (to_float32 9)])]
  ∧ Sample.gru_state_dict !! 3
    = Some ("cudnn_gru.bias_hh_l0", Arr [Num 0.5; Num 0.5; Num 0.5])
  ∧ set_params_loop Sample.gru_params initial_locals
      [("cudnn_gru.bias_hh_l0", Arr [Num 0.5; Num 0.5; Num 0.5])]
    = IO [] (Raise (UnboundLocalError "jsn_layer_params")).
Proof. split; [|split]; vm_compute; reflexivity. Qed.

End SetParams.

(** ** The layer factory and [main] *)

Section Factory.
Import Converter.
Variable to_float32 : float → float.
Variable initial_state_dict : layer_kind → list (string * ndarray).
Variable load_state_dict : layer → list (string * ndarray) → result layer.
Variable nbase_flipflop : Z → result Z.
Variable AlphabetInfo : string → string → list string → result alphabet_info.

Abbreviation build_layer :=
  (build_layer initial_state_dict nbase_flipflop AlphabetInfo).
Abbreviation parse_sublayer :=
  (parse_sublayer to_float32 initial_state_dict load_state_dict nbase_flipflop AlphabetInfo).
Abbreviation main :=
  (main to_float32 initial_state_dict load_state_dict nbase_flipflop AlphabetInfo).

(** Whatever the activation of a convolution is, when it is not [tanh] the
    message is built from the layer type. *)
Lemma parse_sublayer_activation (sl : sublayer) (act : string) :
  type sl = "convolution" →
  activation sl = Some act →
  act ≠ "tanh" →
  parse_sublayer sl
  = IO [Stderr ("Incompatible convolutional layer activation fucntion " +:+
                "(convolution) encountered." +:+ nl)]
       (Raise (SystemExit 1)).
Proof.
  intros Hty Hact Hne.
  unfold Converter.parse_sublayer, Converter.build_layer.
  rewrite Hty, Hact. cbn.
  destruct (String.eqb_spec act "tanh") as [->|_]; [contradiction|].
  reflexivity.
Qed.

(** C9 (fails on the code).  A convolution with activation [relu] ends the
    run with exit code 1 after one message on the error stream, and [relu]
    does not occur in that message: it names the layer type instead. *)
Theorem convolution_activation_message :
  parse_sublayer Sample.relu_convolution
  = IO [Stderr ("Incompatible convolutional layer activation fucntion " +:+
                "(convolution) encountered." +:+ nl)]
       (Raise (SystemExit 1))
  ∧ Forall (fun e => match e with
                     | Stderr text => re_search "relu" text = false
                     | _ => False
                     end)
           (trace (parse_sublayer Sample.relu_convolution)).
Proof.
  split.
  - apply (parse_sublayer_activation _ "relu"); [reflexivity..|discriminate].
  - rewrite (parse_sublayer_activation _ "relu");
      [|reflexivity|reflexivity|discriminate].
    repeat constructor.
Qed.

(** The types [main] reports are the types of the model outside the
    supported set, each once. *)
Lemma incompatible_types_spec (m : jsn_model) (t : string) :
  t ∈ elements (incompatible_types m)
  ↔ (∃ sl, sl ∈ model_sublayers m ∧ type sl = t) ∧ t ∉ COMPATIBLE_LAYERS.
Proof.
  unfold incompatible_types.
  rewrite elem_of_elements, elem_of_difference, elem_of_list_to_set, list_elem_of_fmap.
  split.
  - intros [(sl & -> & Hsl) Hnot]. split; [exists sl; split; [exact Hsl|reflexivity]|exact Hnot].
  - intros [(sl & Hsl & <-) Hnot]. split; [exists sl; split; [reflexivity|exact Hsl]|exact Hnot].
Qed.

Lemma format_incompatible_layer (listed : string) :
  format incompatible_layer [listed]
  = "Incompatible layer type(s) (" +:+ listed +:+ ") encountered." +:+ nl.
Proof. reflexivity. Qed.

(** With an unsupported type in the model, [main] ends at the up-front
    check. *)
Lemma main_stops_at_check (m : jsn_model) (output : string) :
  0 < base.size (incompatible_types m) →
  main m output
  = IO [Stderr (format incompatible_layer
                  [join ", " (elements (incompatible_types m))])]
       (Raise (SystemExit 1)).
Proof.
  intros Hpos. unfold Converter.main.
  rewrite bool_decide_eq_true_2 by exact Hpos.
  reflexivity.
Qed.

(** C3.  When some layer of the model has a type outside the supported
    set, [main] exits with code 1 having done one thing only: it wrote to
    the error stream the incompatible-layer-type message, which lists,
    separated by commas, exactly the unsupported types of the model, each
    once.  No layer was constructed and nothing was saved. *)
Theorem main_rejects_incompatible_types (m : jsn_model) (output : string) :
  (∃ sl, sl ∈ model_sublayers m ∧ type sl ∉ COMPATIBLE_LAYERS) →
  ∃ offending : list string,
    NoDup offending
    ∧ (∀ t, t ∈ offending
            ↔ (∃ sl, sl ∈ model_sublayers m ∧ type sl = t) ∧ t ∉ COMPATIBLE_LAYERS)
    ∧ main m output
      = IO [Stderr ("Incompatible layer type(s) (" +:+ join ", " offending +:+
                    ") encountered." +:+ nl)]
           (Raise (SystemExit 1))
    ∧ (∀ k, Construct k ∉ trace (main m output))
    ∧ (∀ network path, TorchSave network path ∉ trace (main m output)).
Proof.
  intros (sl & Hin & Hbad).
  assert (Hpos : 0 < base.size (incompatible_types m)).
  { assert (Hel : type sl ∈ incompatible_types m).
    { apply elem_of_elements, incompatible_types_spec. eauto. }
    destruct (decide (base.size (incompatible_types m) = 0)) as [Hz|Hnz]; [|lia].
    apply size_empty_iff in Hz. destruct (Hz (type sl)) as [Hempty _].
    destruct (not_elem_of_empty (C:=gset string) (type sl) (Hempty Hel)). }
  exists (elements (incompatible_types m)).
  rewrite (main_stops_at_check _ _ Hpos), format_incompatible_layer.
  split; [apply NoDup_elements|].
  split; [apply incompatible_types_spec|].
  split; [reflexivity|].
  split; intros; cbn; rewrite list_elem_of_singleton; discriminate.
Qed.

End Factory.

(** A model with a layer of type [bogus] between two supported layers. *)
Lemma main_rejects_incompatible_types_witness :
  ∃ offending : list string,
    NoDup offending
    ∧ (∀ t, t ∈ offending
            ↔ (∃ sl, sl ∈ Converter.model_sublayers Sample.bogus_model
                     ∧ Converter.type sl = t)
              ∧ t ∉ Converter.COMPATIBLE_LAYERS)
    ∧ Converter.main Sample.keep_float64 Sample.fresh_state_dict
        Sample.store_state_dict Sample.four_bases Sample.plain_alphabet
        Sample.bogus_model "model.checkpoint"
      = IO [Converter.Stderr
              ("Incompatible layer type(s) (" +:+ join ", " offending +:+
               ") encountered." +:+ nl)]
           (Raise (SystemExit 1))
    ∧ (∀ k, Converter.Construct k
            ∉ trace (Converter.main Sample.keep_float64 Sample.fresh_state_dict
                       Sample.store_state_dict Sample.four_bases Sample.plain_alphabet
                       Sample.bogus_model "model.checkpoint"))
    ∧ (∀ network path,
         Converter.TorchSave network path
         ∉ trace (Converter.main Sample.keep_float64 Sample.fresh_state_dict
                    Sample.store_state_dict Sample.four_bases Sample.plain_alphabet
                    Sample.bogus_model "model.checkpoint")).
Proof.
  apply main_rejects_incompatible_types.
  exists (Sample.descriptor "bogus" None ∅). split.
  - right. left.
  - apply (bool_decide_eq_false_1 ("bogus" ∈ Converter.COMPATIBLE_LAYERS)).
    vm_compute. reflexivity.
Defined.

(** ** The collapse alphabet *)

(** C4, as stated, fails: with the four symbols [ACGT] the second canonical
    base is looked up at index 2, the third at 3 and the fourth at index 4,
    past the end of the alphabet.  The whole branch stops there, before a
    layer is constructed. *)
Lemma collapse_alphabet_ACGT_index_error :
  Converter.derive_collapse_alphabet "ACGT" [1; 0; 0; 0]%Z = Raise IndexError
  ∧ ¬ (∃ collapse,
         Converter.derive_collapse_alphabet "ACGT" [1; 0; 0; 0]%Z = Ok collapse
         ∧ String.length collapse = 5)
  ∧ Converter.parse_sublayer Sample.keep_float64 Sample.fresh_state_dict
      Sample.store_state_dict Sample.four_bases Sample.plain_alphabet
      Sample.catmod_ACGT
    = IO [] (Raise IndexError).
Proof.
  split; [reflexivity|]. split; [|vm_compute; reflexivity].
  intros (collapse & Heq & _). vm_compute in Heq. discriminate.
Qed.

(** C4, amended.  With a five-symbol output alphabet, in which the symbol
    of the modified base follows its canonical base, and [can_nmods =
    [1,0,0,0]], the collapse alphabet has the five symbols of the output
    alphabet with the first base in place of its modified variant: length
    5, the first base twice.  For [AZCGT] it is [AACGT]. *)
Theorem collapse_alphabet_five_symbols (c0 c1 c2 c3 c4 : ascii) :
  Converter.derive_collapse_alphabet
    (String c0 (String c1 (String c2 (String c3 (String c4 ""))))) [1; 0; 0; 0]%Z
  = Ok (String c0 (String c0 (String c2 (String c3 (String c4 "")))))
  ∧ String.length (String c0 (String c0 (String c2 (String c3 (String c4 ""))))) = 5
  ∧ Converter.derive_collapse_alphabet "AZCGT" [1; 0; 0; 0]%Z = Ok "AACGT".
Proof. split; [reflexivity|split; reflexivity]. Qed.

(** The unmodified alphabet is its own collapse alphabet. *)
Example collapse_alphabet_unmodified :
  Converter.derive_collapse_alphabet "ACGT" [0; 0; 0; 0]%Z = Ok "ACGT".
Proof. reflexivity. Qed.

(** ** Reading an alignment summary *)

Section Summary.
Import Calibrator.

Lemma field_found (t : table) (name : string) i kv :
  list_find (fun kv => kv.1 = name) t = Some (i, kv) →
  field t name = mret kv.2 ∧ kv.1 = name.
Proof.
  intros Hfind. unfold field. rewrite Hfind. destruct kv as [k c]. split; [done|].
  by apply list_find_Some in Hfind as (_ & Hk & _).
Qed.

Lemma field_lacking (t : table) (name : string) :
  lacks t name → field t name = raise ValueError.
Proof. intros Hlacks. unfold field. by rewrite Hlacks. Qed.

(** Arithmetic on two columns of numbers succeeds, with a column of
    numbers. *)
Lemma np_arith_numbers fz ff (a b : column) :
  (∀ l, a ≠ StrCol l) → (∀ l, b ≠ StrCol l) →
  ∃ c, np_arith fz ff a b = mret c ∧ ∀ l, c ≠ StrCol l.
Proof.
  intros Ha Hb. destruct a as [x|x|x], b as [y|y|y];
    try (by destruct (Ha x)); try (by destruct (Hb y));
    cbn; eexists; (split; [reflexivity|done]).
Qed.

Lemma numeric_field (t : table) (name : string) i kv :
  numeric t name →
  list_find (fun kv => kv.1 = name) t = Some (i, kv) →
  ∀ l, kv.2 ≠ StrCol l.
Proof.
  intros Hnum Hfind l Hstr. destruct kv as [k c]. cbn in Hstr. subst c.
  pose proof (field_found _ _ _ _ Hfind) as [_ Hk]. cbn in Hk. subst k.
  by eapply Hnum.
Qed.

Ltac look_up t name H :=
  let i := fresh "i" in
  let kv := fresh "kv" in
  destruct (list_find (fun kv => kv.1 = name) t) as [[i kv]|] eqn:H;
  [rewrite (proj1 (field_found _ _ _ _ H)), io_bind_ret
  |by rewrite (field_lacking _ _ H)].

(** The first attempt ends with ValueError, silently, when a primary column
    is lacking. *)
Lemma guppy_attempt_fails (t : table) :
  (∃ name, name ∈ primary_columns ∧ lacks t name) →
  guppy_attempt t = raise ValueError.
Proof.
  intros (name & Hin & Hlacks). unfold guppy_attempt.
  look_up t "read_id" H1.
  look_up t "alignment_accuracy" H2.
  look_up t "alignment_strand_end" H3.
  look_up t "alignment_strand_start" H4.
  unfold lacks in Hlacks. unfold primary_columns in Hin.
  repeat (apply elem_of_cons in Hin as [->|Hin]; [congruence|]).
  by apply elem_of_nil in Hin.
Qed.

(** So does the second when a secondary column is lacking, provided the
    columns it subtracts and adds before it meets the lacking one hold
    numbers. *)
Lemma taiyaki_attempt_fails (t : table) :
  (∃ name, name ∈ secondary_columns ∧ lacks t name) →
  numeric t "reference_end" → numeric t "reference_start" →
  numeric t "insertion" →
  taiyaki_attempt t = raise ValueError.
Proof.
  intros (name & Hin & Hlacks) Hend Hstart Hins. unfold taiyaki_attempt.
  look_up t "query" H1.
  look_up t "accuracy" H2.
  look_up t "reference_end" H3.
  look_up t "reference_start" H4.
  destruct (np_arith_numbers Z.sub PrimFloat.sub kv1.2 kv2.2) as (span & Hspan & Hnum);
    [exact (numeric_field _ _ _ _ Hend H3)|exact (numeric_field _ _ _ _ Hstart H4)|].
  change (np_sub kv1.2 kv2.2) with (np_arith Z.sub PrimFloat.sub kv1.2 kv2.2).
  rewrite Hspan, io_bind_ret.
  look_up t "insertion" H5.
  destruct (np_arith_numbers Z.add PrimFloat.add span kv3.2) as (sum & Hsum & Hnum');
    [done|exact (numeric_field _ _ _ _ Hins H5)|].
  change (np_add span kv3.2) with (np_arith Z.add PrimFloat.add span kv3.2).
  rewrite Hsum, io_bind_ret.
  look_up t "deletion" H6.
  unfold lacks in Hlacks. unfold secondary_columns in Hin.
  repeat (apply elem_of_cons in Hin as [->|Hin]; [congruence|]).
  by apply elem_of_nil in Hin.
Qed.

Lemma try_except_caught {A} (handler : io event A) :
  try_except (raise ValueError) is_ValueError handler = handler.
Proof. unfold try_except. cbn. by destruct handler. Qed.

(** X14.  A table with neither schema: the error raised, before anything is
    printed, ends with the list of the columns found. *)
Lemma get_alignment_data_neither (t : table) :
  (∃ name, name ∈ primary_columns ∧ lacks t name) →
  (∃ name, name ∈ secondary_columns ∧ lacks t name) →
  numeric t "reference_end" → numeric t "reference_start" →
  numeric t "insertion" →
  get_alignment_data t
  = IO [] (Raise (Exception (missing_columns_prefix +:+ ". Columns are " +:+
                             repr_list (t.*1)))).
Proof.
  intros Hprimary Hsecondary Hend Hstart Hins. unfold get_alignment_data.
  rewrite guppy_attempt_fails, try_except_caught by done.
  rewrite taiyaki_attempt_fails, try_except_caught by done.
  by rewrite format_columns.
Qed.

End Summary.

(** C8 (fails on the code).  A table with exactly the columns the message
    lists as the second set (id, accuracy, reference_end, reference_start,
    insertion, deletion) has neither schema, since the code reads [query],
    not [id].  The error names the columns found, but of the expected
    columns it names neither [query] nor [alignment_accuracy]. *)
Theorem get_alignment_data_message_names :
  Calibrator.get_alignment_data CalibratorSample.table_as_message_asks
  = IO [] (Raise (Exception
      ("Alignment summary file must contain either columns " +:+
       "(read_ids, alignment accuracy, alignment_strand_end, " +:+
       "alignment_strand_start) or " +:+
       "(id, accuracy, reference_end, reference_start, " +:+
       "insertion, deletion  )" +:+
       ". Columns are ['id', 'accuracy', 'reference_end', " +:+
       "'reference_start', 'insertion', 'deletion']")))
  ∧ match outcome (Calibrator.get_alignment_data CalibratorSample.table_as_message_asks) with
    | Raise (Exception msg) =>
        re_search "query" msg = false ∧ re_search "alignment_accuracy" msg = false
    | _ => False
    end.
Proof. split; [vm_compute; reflexivity|]. vm_compute. split; reflexivity. Qed.

(** ** The order of binary64 *)

Section FloatOrder.
Import Calibrator.

Lemma SFcompare_refl s : sf_is_nan s = false → SFcompare s s = Some Eq.
Proof.
  destruct s as [| [] | | [] m e]; cbn; try done; intros _;
    rewrite Z.compare_refl, ?Pos.compare_cont_refl; done.
Qed.

Lemma SFcompare_antisym s t c :
  SFcompare s t = Some c → SFcompare t s = Some (CompOpp c).
Proof.
  destruct s as [[]|[]| |[] m e], t as [[]|[]| |[] m' e']; cbn; try congruence;
    intros [= <-]; try reflexivity;
    rewrite (Z.compare_antisym e e'); destruct (e ?= e')%Z; cbn; try reflexivity;
    rewrite (Pos.compare_cont_antisym m m'), ?CompOpp_involutive; reflexivity.
Qed.

Lemma SFleb_false_ltb s t :
  sf_is_nan s = false → sf_is_nan t = false →
  SFleb s t = false → SFltb t s = true.
Proof.
  intros Hs Ht. unfold SFleb, SFltb.
  destruct (SFcompare s t) as [c|] eqn:Hc.
  - rewrite (SFcompare_antisym _ _ _ Hc). by destruct c.
  - destruct s, t; discriminate.
Qed.

Lemma SFleb_trans s t u :
  SFleb s t = true → SFleb t u = true → SFleb s u = true.
Proof.
  unfold SFleb.
  destruct s as [[]|[]| |[] m e], t as [[]|[]| |[] m' e'], u as [[]|[]| |[] m'' e''];
    cbn; try done;
    repeat match goal with
           | |- context [PosDef.Pos.compare_cont Eq ?a ?b] =>
               change (PosDef.Pos.compare_cont Eq a b) with (Pos.compare a b)
           end;
    destruct (Z.compare_spec e e'), (Z.compare_spec e' e''), (Z.compare_spec e e'');
    try done; try lia;
    destruct (Pos.compare_spec m m'), (Pos.compare_spec m' m''), (Pos.compare_spec m m'');
    cbn; try done; try lia.
Qed.

Lemma is_nan_spec x : PrimFloat.is_nan x = sf_is_nan (Prim2SF x).
Proof.
  unfold PrimFloat.is_nan. rewrite FloatAxioms.eqb_spec. unfold SFeqb.
  destruct (sf_is_nan (Prim2SF x)) eqn:Hnan.
  - destruct (Prim2SF x); try discriminate. reflexivity.
  - rewrite SFcompare_refl by done. reflexivity.
Qed.

(** Among numbers, [<=] is total, reflexive and transitive. *)
Lemma leb_false_ltb x y :
  PrimFloat.is_nan x = false → PrimFloat.is_nan y = false →
  PrimFloat.leb x y = false → PrimFloat.ltb y x = true.
Proof.
  rewrite !is_nan_spec, leb_spec, ltb_spec. apply SFleb_false_ltb.
Qed.

Lemma ltb_leb x y : PrimFloat.ltb x y = true → PrimFloat.leb x y = true.
Proof.
  rewrite leb_spec, ltb_spec. unfold SFleb, SFltb.
  by destruct (SFcompare (Prim2SF x) (Prim2SF y)) as [[]|].
Qed.

Lemma leb_refl x : PrimFloat.is_nan x = false → PrimFloat.leb x x = true.
Proof.
  rewrite is_nan_spec, leb_spec. intros Hx. unfold SFleb.
  by rewrite SFcompare_refl.
Qed.

Lemma leb_trans x y z :
  PrimFloat.leb x y = true → PrimFloat.leb y z = true → PrimFloat.leb x z = true.
Proof. rewrite !leb_spec. apply SFleb_trans. Qed.

(** A comparison with NaN is false. *)
Lemma leb_nan_l x y : PrimFloat.is_nan x = true → PrimFloat.leb x y = false.
Proof.
  rewrite is_nan_spec, leb_spec. unfold SFleb.
  destruct (Prim2SF x); try discriminate. reflexivity.
Qed.

End FloatOrder.

(** ** [np.argmax] *)

Section Argmax.
Import Calibrator.

Lemma argmax_scan_lt mp max_ind i rest :
  max_ind < i → argmax_scan mp max_ind i rest < i + length rest.
Proof.
  revert mp max_ind i. induction rest as [|x rest IH]; intros mp max_ind i Hlt; cbn.
  - lia.
  - destruct (PrimFloat.leb x mp); cbn.
    + specialize (IH mp max_ind (S i)). lia.
    + destruct (PrimFloat.is_nan x); [lia|]. specialize (IH x i (S i)). lia.
Qed.

Lemma argmax_index_lt a : a ≠ [] → argmax_index a < length a.
Proof.
  destruct a as [|x rest]; [done|intros _]. cbn.
  destruct (PrimFloat.is_nan x); [lia|].
  pose proof (argmax_scan_lt x 0 1 rest). lia.
Qed.

(** The scan stops at the first NaN it meets. *)
Lemma argmax_scan_first_nan numbers x rest mp max_ind i :
  Forall number numbers → PrimFloat.is_nan x = true →
  argmax_scan mp max_ind i (numbers ++ x :: rest) = i + length numbers.
Proof.
  intros Hnum Hx. revert mp max_ind i.
  induction Hnum as [|y numbers Hy _ IH]; intros mp max_ind i; cbn.
  - rewrite (leb_nan_l x mp Hx), Hx. cbn. lia.
  - unfold number in Hy. rewrite Hy.
    destruct (PrimFloat.leb y mp); cbn; rewrite IH; lia.
Qed.

(** Over numbers the scan keeps the first position of the running
    maximum. *)
Lemma argmax_scan_first_maximum rest : ∀ scanned mp max_ind,
  Forall number rest → number mp →
  scanned !! max_ind = Some mp →
  (∀ j y, scanned !! j = Some y → PrimFloat.leb y mp = true) →
  (∀ j y, j < max_ind → scanned !! j = Some y → PrimFloat.ltb y mp = true) →
  first_maximum (scanned ++ rest) (argmax_scan mp max_ind (length scanned) rest).
Proof.
  induction rest as [|x rest IH]; intros scanned mp max_ind Hrest Hmp Hat Hle Hlt.
  - cbn. rewrite app_nil_r. exists mp. auto.
  - apply Forall_cons in Hrest as [Hx Hrest]. cbn [argmax_scan].
    replace (scanned ++ x :: rest) with ((scanned ++ [x]) ++ rest)
      by (by rewrite <- app_assoc).
    replace (S (length scanned)) with (length (scanned ++ [x]))
      by (rewrite length_app; cbn; lia).
    destruct (PrimFloat.leb x mp) eqn:Hcmp; cbn [negb].
    + apply IH; try done.
      * rewrite lookup_app_l by (by eapply lookup_lt_Some). done.
      * intros j y [[_ Hy]|[_ <-]]%lookup_snoc_Some; eauto.
      * intros j y Hj [[_ Hy]|[-> _]]%lookup_snoc_Some; [eauto|].
        apply lookup_lt_Some in Hat. lia.
    + unfold number in Hx. rewrite Hx.
      assert (Hgt : PrimFloat.ltb mp x = true) by (by apply leb_false_ltb).
      replace (length scanned) with (length scanned + 0) at 1 by lia.
      assert (Hbelow : ∀ j y, scanned !! j = Some y → PrimFloat.ltb y x = true).
      { intros j y Hy. apply leb_false_ltb; [done| |].
        - specialize (Hle _ _ Hy). rewrite is_nan_spec.
          rewrite leb_spec in Hle. unfold SFleb in Hle.
          by destruct (Prim2SF y).
        - destruct (PrimFloat.leb x y) eqn:Hxy; [|done].
          rewrite (leb_trans x y mp Hxy (Hle _ _ Hy)) in Hcmp. done. }
      rewrite Nat.add_0_r. apply IH; try done.
      * by rewrite list_lookup_middle.
      * intros j y [[_ Hy]|[_ <-]]%lookup_snoc_Some.
        -- apply ltb_leb. eauto.
        -- by apply leb_refl.
      * intros j y Hj [[_ Hy]|[-> _]]%lookup_snoc_Some; [eauto|lia].
Qed.

(** [np.argmax] of a vector of numbers is the first position of its
    maximum; of a vector with a NaN, the first position of a NaN. *)
Lemma argmax_index_numbers a :
  a ≠ [] → Forall number a → first_maximum a (argmax_index a).
Proof.
  destruct a as [|x rest]; [done|]. intros _ [Hx Hrest]%Forall_cons.
  cbn. unfold number in Hx. rewrite Hx.
  apply (argmax_scan_first_maximum rest [x] x 0); try done.
  - intros [|j] y; cbn; [intros [= <-]; by apply leb_refl|done].
  - intros j y Hj. lia.
Qed.

Lemma argmax_index_nan a :
  ¬ Forall number a → first_nan a (argmax_index a).
Proof.
  intros Hnan.
  assert (Hsplit : ∃ numbers x rest,
             a = numbers ++ x :: rest ∧ Forall number numbers
             ∧ PrimFloat.is_nan x = true).
  { induction a as [|y a IH]; [destruct Hnan; constructor|].
    destruct (PrimFloat.is_nan y) eqn:Hy.
    - exists [], y, a. auto.
    - destruct IH as (numbers & x & rest & -> & Hnum & Hx).
      + intros Ha. apply Hnan. by constructor.
      + exists (y :: numbers), x, rest. split; [done|]. split; [|done].
        by constructor. }
  destruct Hsplit as (numbers & x & rest & -> & Hnum & Hx).
  assert (Hloc : argmax_index (numbers ++ x :: rest) = length numbers).
  { destruct Hnum as [|y numbers Hy Hnum]; cbn; [by rewrite Hx|].
    unfold number in Hy. rewrite Hy.
    rewrite argmax_scan_first_nan by done. lia. }
  rewrite Hloc. exists x. split; [by rewrite list_lookup_middle|]. split; [done|].
  intros j y Hj Hy. rewrite lookup_app_l in Hy by done.
  by eapply (Forall_lookup_1 number).
Qed.

End Argmax.

(** ** The join, for every summary *)

Section Join.
Import Calibrator.

Abbreviation accuracy_of id records := (chosen (matches_of id records)).1.
Abbreviation length_of id records := (chosen (matches_of id records)).2.

Lemma np_argmax_run (a : list float) :
  a ≠ [] → np_argmax a = mret (argmax_index a).
Proof. by destruct a. Qed.

(** One iteration of the loop, on the columns of a list of records. *)
Lemma merge_read_run (records : list alignment) (st : merged) (nread : nat)
    (id : string) :
  merge_read (alignment_id <$> records) (alignment_accuracy <$> records)
             (aligned_length <$> records) st nread id
  = mret (match matches_of id records with
          | [] =>
              Merged (fastq_accuracies st) (fastq_alignment_lens st)
                     (read_not_found st + 1) (more_than_one_alignment st)
          | [_] =>
              Merged (<[nread := accuracy_of id records]> (fastq_accuracies st))
                     (<[nread := length_of id records]> (fastq_alignment_lens st))
                     (read_not_found st) (more_than_one_alignment st)
          | _ :: _ :: _ =>
              Merged (<[nread := accuracy_of id records]> (fastq_accuracies st))
                     (<[nread := length_of id records]> (fastq_alignment_lens st))
                     (read_not_found st) (more_than_one_alignment st + 1)
          end).
Proof.
  unfold merge_read. rewrite <- list_fmap_compose.
  rewrite !np_select_fmap, !io_bind_ret.
  change (List.filter _ records) with (matches_of id records).
  destruct (matches_of id records) as [|r [|r' ms]] eqn:Hms; [done..|].
  set (found := r :: r' :: ms) in *.
  assert (Hlt : argmax_index (alignment_accuracy <$> found) < length found).
  { rewrite <- (length_fmap alignment_accuracy). by apply argmax_index_lt. }
  apply lookup_lt_is_Some_2 in Hlt as [best Hbest].
  change (alignment_accuracy <$> found)
    with (alignment_accuracy r :: alignment_accuracy r'
          :: (alignment_accuracy <$> ms)) at 1.
  cbn iota beta. rewrite np_argmax_run by done.
  rewrite io_bind_ret.
  rewrite (item_fmap alignment_accuracy _ _ _ Hbest), io_bind_ret.
  rewrite (item_fmap aligned_length _ _ _ Hbest), io_bind_ret.
  unfold chosen. subst found. cbn iota. by rewrite Hbest.
Qed.

Lemma not_found_cons id ids records :
  not_found (id :: ids) records
  = (if bool_decide (length (matches_of id records) = 0) then 1 else 0)
    + not_found ids records.
Proof. unfold not_found. cbn. by case_bool_decide. Qed.

Lemma several_cons id ids records :
  several (id :: ids) records
  = (if bool_decide (2 ≤ length (matches_of id records)) then 1 else 0)
    + several ids records.
Proof. unfold several. cbn. by case_bool_decide. Qed.

(** The loop: the reads handled so far have their entries, the others still
    hold the initial NaN and -1. *)
Lemma merge_loop_run (records : list alignment) (ids : list string) :
  ∀ (done_accuracies : list float) (done_lens : list Z) (missing many : Z),
    length done_accuracies = length done_lens →
    merge_loop (alignment_id <$> records) (alignment_accuracy <$> records)
               (aligned_length <$> records)
               (Merged (done_accuracies ++ replicate (length ids) PrimFloat.nan)
                       (done_lens ++ replicate (length ids) (-1)%Z) missing many)
               (length done_accuracies) ids
    = mret (Merged
              (done_accuracies ++ ((fun id => accuracy_of id records) <$> ids))
              (done_lens ++ ((fun id => length_of id records) <$> ids))
              (missing + Z.of_nat (not_found ids records))
              (many + Z.of_nat (several ids records))).
Proof.
  induction ids as [|id ids IH]; intros done_accuracies done_lens missing many Hlen.
  - cbn. unfold not_found, several. cbn. by rewrite !Z.add_0_r.
  - cbn [merge_loop]. rewrite merge_read_run, io_bind_ret.
    rewrite not_found_cons, several_cons.
    cbn [length fmap list_fmap fastq_accuracies fastq_alignment_lens
         read_not_found more_than_one_alignment].
    unfold accuracy_of, length_of.
    destruct (matches_of id records) as [|r [|r' ms]] eqn:Hms.
    + rewrite !array_keep_next.
      replace (S (length done_accuracies))
        with (length (done_accuracies ++ [PrimFloat.nan]))
        by (rewrite length_app; cbn; lia).
      rewrite IH by (rewrite !length_app; cbn; lia).
      rewrite <- !app_assoc. cbn.
      f_equal; f_equal; first [reflexivity|repeat case_bool_decide; lia].
    + rewrite Hlen at 2. rewrite !array_insert_next.
      replace (S (length done_accuracies))
        with (length (done_accuracies ++ [(chosen [r]).1]))
        by (rewrite length_app; cbn; lia).
      rewrite IH by (rewrite !length_app; cbn; lia).
      rewrite <- !app_assoc. cbn.
      f_equal; f_equal; first [reflexivity|repeat case_bool_decide; lia].
    + rewrite Hlen at 2. rewrite !array_insert_next.
      replace (S (length done_accuracies))
        with (length (done_accuracies ++ [(chosen (r :: r' :: ms)).1]))
        by (rewrite length_app; cbn; lia).
      rewrite IH by (rewrite !length_app; cbn; lia).
      rewrite <- !app_assoc. cbn [app length].
      f_equal; f_equal; first [reflexivity|repeat case_bool_decide; lia].
Qed.

(** The join gives every read the accuracy and the length chosen among its
    records, and reports how many reads had none and how many had several. *)
Lemma merge_align_fastq_data_run (fastq_ids : list string) (records : list alignment) :
  merge_align_fastq_data fastq_ids (alignment_id <$> records)
    (alignment_accuracy <$> records) (aligned_length <$> records)
  = IO [Print [VFormat (nl +:+ "{} reads read from fastq.")
                 [VInt (Z.of_nat (length fastq_ids))]] nl;
        Print [VFormat "    {} not found in alignment summary."
                 [VInt (Z.of_nat (not_found fastq_ids records))]] nl;
        Print [VFormat ("    {} with more than one alignment." +:+ nl)
                 [VInt (Z.of_nat (several fastq_ids records))]] nl]
       (Ok ((fun id => accuracy_of id records) <$> fastq_ids,
            (fun id => length_of id records) <$> fastq_ids)).
Proof.
  unfold merge_align_fastq_data.
  pose proof (merge_loop_run records fastq_ids [] [] 0 0 eq_refl) as Hloop.
  cbn [app length] in Hloop. rewrite Hloop, io_bind_ret.
  reflexivity.
Qed.

(** What is chosen.  Without a record: NaN and -1.  With one record: that
    record.  With several: the record at the first position of the maximum
    accuracy when every accuracy is a number, and otherwise the first
    record whose accuracy is NaN. *)
Lemma chosen_spec (ms : list alignment) :
  (ms = [] → chosen ms = (PrimFloat.nan, (-1)%Z))
  ∧ (∀ r, ms = [r] → chosen ms = (alignment_accuracy r, aligned_length r))
  ∧ (2 ≤ length ms →
     ∃ loc r,
       ms !! loc = Some r
       ∧ chosen ms = (alignment_accuracy r, aligned_length r)
       ∧ (Forall number (alignment_accuracy <$> ms)
          → first_maximum (alignment_accuracy <$> ms) loc)
       ∧ (¬ Forall number (alignment_accuracy <$> ms)
          → first_nan (alignment_accuracy <$> ms) loc)).
Proof.
  split; [by intros ->|]. split; [by intros r ->|].
  intros Hmany. destruct ms as [|r [|r' ms]]; [cbn in Hmany; lia..|].
  set (found := r :: r' :: ms) in *.
  assert (Hlt : argmax_index (alignment_accuracy <$> found) < length found).
  { rewrite <- (length_fmap alignment_accuracy). by apply argmax_index_lt. }
  apply lookup_lt_is_Some_2 in Hlt as [best Hbest].
  exists (argmax_index (alignment_accuracy <$> found)), best.
  split; [done|]. split.
  - unfold chosen. subst found. cbn iota. by rewrite Hbest.
  - split; [by apply argmax_index_numbers|apply argmax_index_nan].
Qed.

End Join.

(** C5 (fails on the code).  A read with two alignment records, the first
    with a missing accuracy and the second with accuracy 0.9 and length
    100, is given the missing accuracy and length 0: [np.argmax] takes a
    NaN for the maximum.  (With accuracies 0.5 and 0.9 the second record is
    chosen.) *)
Theorem merge_prefers_missing_accuracy :
  outcome_value (Calibrator.merge_align_fastq_data ["read1"]
    CalibratorSample.two_alignments_ids CalibratorSample.two_alignments_accuracies
    CalibratorSample.two_alignments_lens)
  = Some ([PrimFloat.nan], [0%Z])
  ∧ outcome_value (Calibrator.merge_align_fastq_data ["read1"]
      CalibratorSample.two_alignments_ids [0.5%float; 0.9%float]
      CalibratorSample.two_alignments_lens)
    = Some ([0.9%float], [100%Z]).
Proof. split; vm_compute; reflexivity. Qed.

(** ** Filtering *)

Section Filter.
Import Calibrator.





End Filter.


(** ** The mean quality score *)

Section Qscore.
Import Calibrator.
Variable np_power : float → float → float.
Variable np_log10 : float → float.
Variable np_mean : list float → float.

(** What IEEE 754 fixes of the three library functions: any power with
    exponent zero is one, the logarithm of one is zero, and the mean of
    ones is one. *)
Hypothesis power_zero : ∀ x, np_power x (-0)%float = 1%float.
Hypothesis log10_one : np_log10 1 = 0%float.
Hypothesis mean_ones : ∀ n, np_mean (replicate (S n) 1%float) = 1%float.

(** X25.  Qualities that are all zero give the mean quality score zero (as the
    float64 [-0.0], which equals [0.0]).  For other qualities the score
    depends on how the library rounds the power and the logarithm. *)
Lemma fastq_file_qscore_zeros (n : nat) :
  fastq_file_qscore np_power np_log10 np_mean (replicate (S n) 0%Z) = (-0)%float
  ∧ PrimFloat.eqb
      (fastq_file_qscore np_power np_log10 np_mean (replicate (S n) 0%Z)) 0
    = true.
Proof using power_zero log10_one mean_ones.
  unfold fastq_file_qscore. rewrite fmap_replicate.
  change (PrimFloat.div (PrimFloat.opp (float_of_Z 0)) 10) with (-0)%float.
  rewrite power_zero, mean_ones, log10_one. split; reflexivity.
Qed.

End Qscore.

(** ** The calibrator script *)

Section Script.
Import Calibrator.
Variable np_power : float → float → float.
Variable np_log10 : float → float.
Variable np_mean : list float → float.
Variable SeqIO_parse : string → result (list (string * list Z)).
Variable sm_RLM_fit : list float → list float → result (list float).
Variable os_listdir : string → result (list string).
Variable fileio_readtsv : string → result table.

Abbreviation read_record := (read_record np_power np_log10 np_mean).
Abbreviation read_records := (read_records np_power np_log10 np_mean).
Abbreviation read_files := (read_files np_power np_log10 np_mean SeqIO_parse).
Abbreviation read_fastqs := (read_fastqs np_power np_log10 np_mean SeqIO_parse).
Abbreviation main :=
  (main np_power np_log10 np_mean SeqIO_parse sm_RLM_fit os_listdir fileio_readtsv).

Lemma read_record_quiet reads_per_dot st record :
  Forall quiet (trace (read_record reads_per_dot st record)).
Proof.
  unfold Calibrator.read_record.
  apply Forall_trace_bind; [case_bool_decide; constructor|intros _].
  apply Forall_trace_bind; [|intros _; constructor].
  case_bool_decide; repeat constructor.
Qed.

Lemma read_records_quiet maxreads reads_per_dot st records :
  Forall quiet (trace (read_records maxreads reads_per_dot st records)).
Proof.
  revert st. induction records as [|record rest IH]; intros st; [constructor|].
  cbn [Calibrator.read_records].
  apply Forall_trace_bind; [apply read_record_quiet|intros st'].
  destruct (reached maxreads st'); [constructor|apply IH].
Qed.

Lemma read_files_quiet maxreads reads_per_dot st fastqlist :
  Forall quiet (trace (read_files maxreads reads_per_dot st fastqlist)).
Proof.
  revert st. induction fastqlist as [|file rest IH]; intros st; [constructor|].
  cbn [Calibrator.read_files].
  apply Forall_trace_bind; [constructor|intros records].
  apply Forall_trace_bind; [apply read_records_quiet|intros st'].
  destruct (reached maxreads st'); [constructor|apply IH].
Qed.

Lemma read_fastqs_quiet fastqlist maxreads reads_per_dot :
  Forall quiet (trace (read_fastqs fastqlist maxreads reads_per_dot)).
Proof.
  unfold Calibrator.read_fastqs.
  apply Forall_trace_bind; [repeat constructor|intros _].
  apply Forall_trace_bind; [apply read_files_quiet|intros st].
  apply Forall_trace_bind; [repeat constructor|intros _; constructor].
Qed.

(** C10.  With [--fastq] given and neither [--input_directory] nor
    [--alignment_summary], the script prints its banner and the two lines
    about the fastq file, reads the fastq file, and then fails: with the
    error of the reader if that failed, and otherwise with NameError on
    [alignment_summary_file], which no branch taken has assigned.  Nothing
    of the regression, neither plot nor fit, has been produced. *)
Theorem main_fastq_only_fails (a : args) (file : string) :
  fastq a = Some file →
  input_directory a = None →
  alignment_summary a = None →
  main a
  = IO ([Print [VStr "Calculating shift and scale parameters to calibrate per-read"] nl;
         Print [VStr "accuracy estimates from q scores."] nl;
         Print [VStr "Command-line argument fastq overrides directory list"] nl;
         Print [VFormat "Calculating average q scores for {}" [VStr file]] nl]
        ++ trace (read_fastqs [file] (maxreads a) 100))%list
       (match outcome (read_fastqs [file] (maxreads a) 100) with
        | Ok _ => Raise (NameError "alignment_summary_file")
        | Raise e => Raise e
        end)
  ∧ (∃ e, outcome (main a) = Raise e)
  ∧ Forall (fun e => regression_output e = false) (trace (main a)).
Proof.
  intros Hfastq Hdir Hsummary.
  assert (Hrun : main a
    = IO ([Print [VStr "Calculating shift and scale parameters to calibrate per-read"] nl;
           Print [VStr "accuracy estimates from q scores."] nl;
           Print [VStr "Command-line argument fastq overrides directory list"] nl;
           Print [VFormat "Calculating average q scores for {}" [VStr file]] nl]
          ++ trace (read_fastqs [file] (maxreads a) 100))%list
         (match outcome (read_fastqs [file] (maxreads a) 100) with
          | Ok _ => Raise (NameError "alignment_summary_file")
          | Raise e => Raise e
          end)).
  { unfold Calibrator.main. rewrite Hfastq, Hdir, Hsummary. unfold print.
    cbn [app].
    repeat (first [ rewrite io_bind_assoc | rewrite io_bind_ret
                  | apply io_bind_emit_eq ]; cbn beta iota).
    apply io_bind_always_raises. intros [[fastq_ids fastq_meanqs] fastq_lens].
    reflexivity. }
  split; [exact Hrun|]. rewrite Hrun. split.
  - unfold outcome at 1.
    destruct (outcome (read_fastqs [file] (maxreads a) 100)); eauto.
  - apply (proj2 (Forall_app _ _ _)). split.
    + repeat (apply Forall_cons; split; [reflexivity|]). constructor.
    + apply read_fastqs_quiet.
Qed.

End Script.

(** A run on [reads.fastq] alone, with a parser that finds one read of
    three bases. *)
Lemma main_fastq_only_fails_witness :
  Calibrator.main CalibratorSample.power CalibratorSample.log10
    CalibratorSample.mean CalibratorSample.one_read CalibratorSample.no_fit
    CalibratorSample.no_directory CalibratorSample.no_table
    CalibratorSample.fastq_only
  = IO ([Calibrator.Print
           [Calibrator.VStr "Calculating shift and scale parameters to calibrate per-read"] nl;
         Calibrator.Print [Calibrator.VStr "accuracy estimates from q scores."] nl;
         Calibrator.Print
           [Calibrator.VStr "Command-line argument fastq overrides directory list"] nl;
         Calibrator.Print
           [Calibrator.VFormat "Calculating average q scores for {}"
              [Calibrator.VStr "reads.fastq"]] nl]
        ++ trace (Calibrator.read_fastqs CalibratorSample.power CalibratorSample.log10
                    CalibratorSample.mean CalibratorSample.one_read
                    ["reads.fastq"] None 100))%list
       (match outcome (Calibrator.read_fastqs CalibratorSample.power
                         CalibratorSample.log10 CalibratorSample.mean
                         CalibratorSample.one_read ["reads.fastq"] None 100) with
        | Ok _ => Raise (NameError "alignment_summary_file")
        | Raise e => Raise e
        end)
  ∧ (∃ e, outcome (Calibrator.main CalibratorSample.power CalibratorSample.log10
                     CalibratorSample.mean CalibratorSample.one_read
                     CalibratorSample.no_fit CalibratorSample.no_directory
                     CalibratorSample.no_table CalibratorSample.fastq_only)
          = Raise e)
  ∧ Forall (fun e => Calibrator.regression_output e = false)
           (trace (Calibrator.main CalibratorSample.power CalibratorSample.log10
                     CalibratorSample.mean CalibratorSample.one_read
                     CalibratorSample.no_fit CalibratorSample.no_directory
                     CalibratorSample.no_table CalibratorSample.fastq_only)).
Proof.
  apply (main_fastq_only_fails CalibratorSample.power CalibratorSample.log10
           CalibratorSample.mean CalibratorSample.one_read CalibratorSample.no_fit
           CalibratorSample.no_directory CalibratorSample.no_table
           CalibratorSample.fastq_only "reads.fastq"); reflexivity.
Defined.

(** The same run, evaluated: the script ends with NameError. *)
Example main_fastq_only_run :
  outcome (Calibrator.main CalibratorSample.power CalibratorSample.log10
             CalibratorSample.mean CalibratorSample.one_read CalibratorSample.no_fit
             CalibratorSample.no_directory CalibratorSample.no_table
             CalibratorSample.fastq_only)
  = Raise (NameError "alignment_summary_file").
Proof. vm_compute. reflexivity. Qed.

(** ** More on running computations *)

Section MoreRuns.
Context {E : Type}.

Lemma io_bind_ext {A B} (m : io E A) (f g : A → io E B) :
  (∀ a, f a = g a) → m ≫= f = m ≫= g.
Proof.
  intros Hfg. unfold mbind, io_mbind, io_bind.
  destruct (outcome m) as [a|e]; [by rewrite Hfg|done].
Qed.

(** A run that ended well, continued. *)
Lemma io_bind_ok {A B} (m : io E A) (f : A → io E B) (a : A) :
  outcome m = Ok a →
  m ≫= f = IO (trace m ++ trace (f a)) (outcome (f a)).
Proof. intros Hm. unfold mbind, io_mbind, io_bind. by rewrite Hm. Qed.

(** A run that raised, continued. *)
Lemma io_bind_raised {A B} (m : io E A) (f : A → io E B) (e : exn) :
  outcome m = Raise e → m ≫= f = IO (trace m) (Raise e).
Proof. intros Hm. unfold mbind, io_mbind, io_bind. by rewrite Hm. Qed.

Lemma io_map_trace {A B} (P : E → Prop) (f : A → io E B) (l : list A) :
  (∀ x, Forall P (trace (f x))) → Forall P (trace (io_map f l)).
Proof.
  intros Hf. induction l as [|x l IH]; [apply Forall_nil_2|].
  cbn [io_map]. apply (Forall_trace_bind P (f x)); [apply Hf|intros y].
  apply (Forall_trace_bind P (io_map f l)); [apply IH|intros ys].
  apply Forall_nil_2.
Qed.

(** A comprehension that ended well ran its body on every element, in
    order, and each run ended well. *)
Lemma io_map_outcome {A B} (f : A → io E B) (l : list A) (ys : list B) :
  outcome (io_map f l) = Ok ys → Forall2 (fun x y => outcome (f x) = Ok y) l ys.
Proof.
  revert ys. induction l as [|x l IH]; intros ys.
  - cbn. intros [= <-]. constructor.
  - cbn [io_map]. unfold io_bind at 1.
    destruct (outcome (f x)) as [y|e] eqn:Hy; [|done]. cbn [outcome].
    unfold io_bind at 1.
    destruct (outcome (io_map f l)) as [ys'|e] eqn:Hys; [|done]. cbn.
    intros [= <-]. constructor; [done|by apply IH].
Qed.

End MoreRuns.

(** ** More on the parameter remapper *)

Section Remapper.
Import Converter.
Variable to_float32 : float → float.
Variable load_state_dict : layer → list (string * ndarray) → result layer.

Abbreviation guess_params := (guess_params to_float32).
Abbreviation set_params_step := (set_params_step to_float32).
Abbreviation set_params_loop := (set_params_loop to_float32).
Abbreviation set_params := (set_params to_float32 load_state_dict).
Abbreviation torch_Tensor := (torch_Tensor to_float32).

Lemma startswith_app (p q s : string) :
  startswith (p +:+ q) s = true → startswith p s = true.
Proof.
  revert s. induction p as [|a p IH]; intros s; [done|].
  change (String a p +:+ q) with (String a (p +:+ q)).
  destruct s as [|b s]; cbn; [done|]. destruct (Ascii.eqb a b); [apply IH|done].
Qed.

(** A word that does not occur in a name does not occur in it with more
    letters after it. *)
Lemma re_search_longer (p q s : string) :
  re_search p s = false → re_search (p +:+ q) s = false.
Proof.
  induction s as [|b s IH]; cbn [re_search]; intros Hp.
  - apply orb_false_iff in Hp as [Hp _]. rewrite orb_false_r.
    destruct (startswith (p +:+ q) "") eqn:Hpq; [|done].
    by rewrite (startswith_app _ _ _ Hpq) in Hp.
  - apply orb_false_iff in Hp as [Hp Hrest]. rewrite (IH Hrest), orb_false_r.
    destruct (startswith (p +:+ q) (String b s)) eqn:Hpq; [|done].
    by rewrite (startswith_app _ _ _ Hpq) in Hp.
Qed.

Lemma format_incompatible_parameter (name : string) :
  format ("Incompatible layer parameter type " +:+ "({}) encountered." +:+ nl) [name]
  = "Incompatible layer parameter type (" +:+ name +:+ ") encountered." +:+ nl.
Proof. reflexivity. Qed.

(** A name that is no key and holds neither [weight] nor [bias] reaches the
    last branch of the chain. *)
Lemma guess_params_unmatched jsn_params st layer_name :
  jsn_params !! layer_name = None →
  re_search "weight" layer_name = false →
  re_search "bias" layer_name = false →
  guess_params jsn_params st layer_name
  = IO [Stderr ("Incompatible layer parameter type (" +:+ layer_name +:+
                ") encountered." +:+ nl)]
       (Raise (SystemExit 1)).
Proof.
  intros Hkey Hweight Hbias. unfold Converter.guess_params, contains.
  rewrite bool_decide_eq_false_2 by (rewrite Hkey; intros [? ?]; discriminate).
  pose proof (re_search_longer "weight" "_ih" _ Hweight) as Hih.
  pose proof (re_search_longer "weight" "_hh" _ Hweight) as Hhh.
  pose proof (re_search_longer "bias" "_ih" _ Hbias) as Hbi.
  pose proof (re_search_longer "bias" "_hh" _ Hbias) as Hbh.
  change ("weight" +:+ "_ih") with "weight_ih" in Hih.
  change ("weight" +:+ "_hh") with "weight_hh" in Hhh.
  change ("bias" +:+ "_ih") with "bias_ih" in Hbi.
  change ("bias" +:+ "_hh") with "bias_hh" in Hbh.
  rewrite Hih, Hhh, Hbi, Hbh, Hweight, Hbias. cbn [andb].
  by rewrite format_incompatible_parameter.
Qed.

(** The loop over two stretches of parameters is the loop over the first
    followed by the loop over the second. *)
Lemma set_params_loop_app jsn_params st items items' :
  set_params_loop jsn_params st (items ++ items')
  = st' ← set_params_loop jsn_params st items;
    set_params_loop jsn_params st' items'.
Proof.
  revert st. induction items as [|[name v] items IH]; intros st.
  - cbn [app Converter.set_params_loop]. by rewrite io_bind_ret.
  - cbn [app Converter.set_params_loop]. rewrite io_bind_assoc.
    apply io_bind_ext. intros st'. apply IH.
Qed.

(** The chain never touches the dictionary being built. *)
Lemma guess_params_params_od jsn_params st layer_name st' :
  outcome (guess_params jsn_params st layer_name) = Ok st' →
  params_od st' = params_od st.
Proof.
  unfold Converter.guess_params. intros Hrun.
  repeat match type of Hrun with
         | context [if ?b then _ else _] => destruct b
         end;
  repeat match type of Hrun with
         | context [getitem ?k ?o] => destruct o; cbn in Hrun
         | context [lift ?r] => destruct r; cbn in Hrun
         end;
  cbn in Hrun;
  repeat match type of Hrun with
         | context [np_concatenate ?a] => destruct (np_concatenate a); cbn in Hrun
         end;
  by simplify_eq.
Qed.

Lemma set_params_step_params_od jsn_params st layer_name st' :
  outcome (set_params_step jsn_params st layer_name) = Ok st' →
  ∃ v, params_od st' = od_set layer_name v (params_od st).
Proof.
  unfold Converter.set_params_step. rewrite outcome_bind.
  destruct (outcome (guess_params jsn_params st layer_name)) as [st1|e] eqn:Hguess;
    [|done].
  apply guess_params_params_od in Hguess. rewrite <- Hguess.
  destruct (jsn_layer_params st1) as [v|]; cbn; [|done].
  intros [= <-]. by exists v.
Qed.

Lemma od_set_fresh {V} (k : string) (v : V) (od : list (string * V)) :
  k ∉ od.*1 → (od_set k v od).*1 = od.*1 ++ [k].
Proof.
  induction od as [|[k' v'] od IH]; [done|]. cbn. intros Hfresh.
  apply not_elem_of_cons in Hfresh as [Hne Hfresh].
  destruct (String.eqb_spec k k') as [->|_]; [done|]. cbn. by rewrite IH.
Qed.

Lemma set_params_loop_names jsn_params items : ∀ st st',
  NoDup ((params_od st).*1 ++ items.*1) →
  outcome (set_params_loop jsn_params st items) = Ok st' →
  (params_od st').*1 = (params_od st).*1 ++ items.*1.
Proof.
  induction items as [|[name v] items IH]; intros st st' Hnodup.
  - cbn. intros [= <-]. by rewrite app_nil_r.
  - cbn [Converter.set_params_loop]. rewrite outcome_bind.
    destruct (outcome (set_params_step jsn_params st name)) as [st1|e] eqn:Hstep;
      [|done].
    apply set_params_step_params_od in Hstep as [w Hod]. intros Hrest.
    assert (Hfresh : name ∉ (params_od st).*1).
    { apply NoDup_app in Hnodup as (_ & Hdisjoint & _).
      intros Hin. apply (Hdisjoint _ Hin). cbn. left. }
    rewrite (IH st1 st'); [|by rewrite Hod, od_set_fresh, <- app_assoc|done].
    by rewrite Hod, od_set_fresh, <- app_assoc.
Qed.

(** X1.  A parameter of the layer whose name is no key of the JSON
    parameters and holds neither [weight] nor [bias] ends the run: once the
    parameters before it have been handled, [set_params] writes the
    incompatible-parameter message with that name to the error stream and
    exits with code 1. *)
Theorem set_params_unmatched_parameter (l : layer)
    (jsn_params : gmap string ndarray) (handled rest : list (string * ndarray))
    (layer_name : string) (v : ndarray) (st : locals) :
  state_dict l = handled ++ (layer_name, v) :: rest →
  outcome (set_params_loop jsn_params initial_locals handled) = Ok st →
  jsn_params !! layer_name = None →
  re_search "weight" layer_name = false →
  re_search "bias" layer_name = false →
  set_params l jsn_params
  = IO (trace (set_params_loop jsn_params initial_locals handled)
        ++ [Stderr ("Incompatible layer parameter type (" +:+ layer_name +:+
                    ") encountered." +:+ nl)])
       (Raise (SystemExit 1)).
Proof.
  intros Hstate Hhandled Hkey Hweight Hbias. unfold Converter.set_params.
  rewrite Hstate, set_params_loop_app, io_bind_assoc.
  rewrite (io_bind_ok _ _ _ Hhandled).
  cbn [Converter.set_params_loop]. unfold Converter.set_params_step.
  by rewrite guess_params_unmatched.
Qed.



(** X3.  When the loop of [set_params] ends well on parameters with
    distinct names, the dictionary it has built holds exactly those names,
    in the order of the layer's state dictionary. *)
Theorem set_params_keeps_names (jsn_params : gmap string ndarray)
    (items : list (string * ndarray)) (st : locals) :
  NoDup items.*1 →
  outcome (set_params_loop jsn_params initial_locals items) = Ok st →
  (params_od st).*1 = items.*1.
Proof.
  intros Hnodup Hrun.
  by rewrite (set_params_loop_names jsn_params items initial_locals st).
Qed.

Lemma guess_params_other_key jsn_params st layer_name key v :
  key ≠ layer_name → key ∉ Cases.rule_keys →
  guess_params (<[key := v]> jsn_params) st layer_name
  = guess_params jsn_params st layer_name.
Proof.
  intros Hname Hrules. unfold Cases.rule_keys in Hrules.
  repeat (apply not_elem_of_cons in Hrules as [? Hrules]).
  unfold Converter.guess_params, contains.
  by rewrite !lookup_insert_ne.
Qed.

(** X4.  An entry of the JSON parameters under a key that is neither a
    parameter name of the layer nor one of [iW], [sW], [b], [W] is never
    looked at: with or without it [set_params] does the same. *)
Theorem set_params_ignores_other_entries (l : layer)
    (jsn_params : gmap string ndarray) (key : string) (v : ndarray) :
  key ∉ (state_dict l).*1 →
  key ∉ Cases.rule_keys →
  set_params l (<[key := v]> jsn_params) = set_params l jsn_params.
Proof.
  intros Hname Hrules. unfold Converter.set_params.
  assert (Hloop : ∀ items st, key ∉ items.*1 →
            set_params_loop (<[key := v]> jsn_params) st items
            = set_params_loop jsn_params st items).
  { induction items as [|[name w] items IH]; intros st Hfresh; [done|].
    cbn in Hfresh. apply not_elem_of_cons in Hfresh as [Hne Hfresh].
    cbn [Converter.set_params_loop]. unfold Converter.set_params_step.
    rewrite guess_params_other_key by done.
    apply io_bind_ext. intros st'. by apply IH. }
  by rewrite Hloop.
Qed.

End Remapper.

(** A layer with a parameter named [scale]. *)
Lemma set_params_unmatched_parameter_witness :
  Converter.set_params Sample.keep_float64 Sample.store_state_dict
    Cases.scaled_layer Sample.dense_params
  = IO (trace (Converter.set_params_loop Sample.keep_float64 Sample.dense_params
                 Converter.initial_locals
                 [("linear.weight", Converter.Arr [Converter.Arr [Converter.Num 0; Converter.Num 0]])])
        ++ [Converter.Stderr ("Incompatible layer parameter type (" +:+ "scale" +:+
                              ") encountered." +:+ nl)])
       (Raise (SystemExit 1)).
Proof.
  eapply (set_params_unmatched_parameter Sample.keep_float64 Sample.store_state_dict
            Cases.scaled_layer Sample.dense_params
            [("linear.weight", Converter.Arr [Converter.Arr [Converter.Num 0; Converter.Num 0]])]
            [] "scale" (Converter.Arr [Converter.Num 1]));
    vm_compute; reflexivity.
Defined.


(** The four parameters of a GRU. *)
Lemma set_params_keeps_names_witness :
  ∃ st, outcome (Converter.set_params_loop Sample.keep_float64 Sample.gru_params
                   Converter.initial_locals Sample.gru_state_dict) = Ok st
        ∧ (Converter.params_od st).*1 = Sample.gru_state_dict.*1.
Proof.
  eexists. split; [vm_compute; reflexivity|].
  apply (set_params_keeps_names Sample.keep_float64 Sample.gru_params
           Sample.gru_state_dict).
  - apply (bool_decide_unpack (NoDup Sample.gru_state_dict.*1)). vm_compute. exact I.
  - vm_compute. reflexivity.
Defined.

(** A comment stored beside the parameters of a GRU. *)
Lemma set_params_ignores_other_entries_witness :
  Converter.set_params Sample.keep_float64 Sample.store_state_dict
    (Converter.Layer (Converter.GruMod 1 1) Sample.gru_state_dict)
    (<["comment" := Converter.Arr []]> Sample.gru_params)
  = Converter.set_params Sample.keep_float64 Sample.store_state_dict
      (Converter.Layer (Converter.GruMod 1 1) Sample.gru_state_dict) Sample.gru_params.
Proof.
  apply set_params_ignores_other_entries.
  - cbn. rewrite !not_elem_of_cons. repeat split; [discriminate..|apply not_elem_of_nil].
  - unfold Cases.rule_keys. rewrite !not_elem_of_cons.
    repeat split; [discriminate..|apply not_elem_of_nil].
Defined.

(** ** More on the layer factory and [main] *)

Section Checkpoint.
Import Converter.
Variable to_float32 : float → float.
Variable initial_state_dict : layer_kind → list (string * ndarray).
Variable load_state_dict : layer → list (string * ndarray) → result layer.
Variable nbase_flipflop : Z → result Z.
Variable AlphabetInfo : string → string → list string → result alphabet_info.

Abbreviation build_layer :=
  (build_layer initial_state_dict nbase_flipflop AlphabetInfo).
Abbreviation parse_sublayer :=
  (parse_sublayer to_float32 initial_state_dict load_state_dict nbase_flipflop AlphabetInfo).
Abbreviation main :=
  (main to_float32 initial_state_dict load_state_dict nbase_flipflop AlphabetInfo).

Ltac saves_nothing_step :=
  first
    [ apply Forall_nil_2
    | apply Forall_cons; split; [reflexivity|]
    | apply Forall_trace_bind; [|intros ?]
    | match goal with
      | |- Forall _ (trace (if ?b then _ else _)) => destruct b
      | |- Forall _ (trace (match ?x with _ => _ end)) => destruct x
      | |- Forall _ (trace (getitem _ ?o)) => destruct o
      | |- Forall _ (trace (read_local _ ?o)) => destruct o
      | |- Forall _ (trace (lift _)) => apply Forall_nil_2
      | |- Forall _ (trace (emit _)) => apply Forall_cons; split; [reflexivity|]
      | |- Forall _ (trace (new_layer _ _)) => unfold new_layer
      end ].

Lemma set_params_loop_saves_nothing jsn_params items : ∀ st,
  Cases.saves_nothing (trace (set_params_loop to_float32 jsn_params st items)).
Proof.
  unfold Cases.saves_nothing.
  induction items as [|[name v] items IH]; intros st; [apply Forall_nil_2|].
  cbn [Converter.set_params_loop].
  apply Forall_trace_bind; [|intros st'; apply IH].
  unfold Converter.set_params_step, Converter.guess_params.
  repeat saves_nothing_step.
Qed.

Lemma parse_sublayer_saves_nothing (sl : sublayer) :
  Cases.saves_nothing (trace (parse_sublayer sl)).
Proof.
  unfold Cases.saves_nothing, Converter.parse_sublayer.
  apply Forall_trace_bind.
  - unfold Converter.build_layer. repeat saves_nothing_step.
  - intros [bound sl']. repeat saves_nothing_step.
    all: apply set_params_loop_saves_nothing.
Qed.

(** How [main] ends, by its up-front check and by the layers. *)
Lemma main_cases (m : jsn_model) (output : string) :
  (0 < base.size (incompatible_types m)
   ∧ outcome (main m output) = Raise (SystemExit 1)
   ∧ Cases.saves_nothing (trace (main m output)))
  ∨ (base.size (incompatible_types m) = 0
     ∧ ∃ e, outcome (io_map parse_sublayer (model_sublayers m)) = Raise e
            ∧ main m output = IO (trace (io_map parse_sublayer (model_sublayers m)))
                                 (Raise e))
  ∨ (base.size (incompatible_types m) = 0
     ∧ ∃ network, outcome (io_map parse_sublayer (model_sublayers m)) = Ok network
                  ∧ main m output
                    = IO (trace (io_map parse_sublayer (model_sublayers m))
                          ++ [TorchSave network output]) (Ok tt)).
Proof.
  destruct (decide (0 < base.size (incompatible_types m))) as [Hpos|Hzero].
  - left. split; [done|]. unfold Converter.main.
    rewrite bool_decide_eq_true_2 by done. split; [reflexivity|].
    repeat constructor.
  - right. assert (Hsize : base.size (incompatible_types m) = 0) by lia.
    unfold Converter.main. rewrite bool_decide_eq_false_2 by done.
    change (mret tt ≫= ?k) with (mret (M:=io event) tt ≫= k).
    rewrite io_bind_ret.
    destruct (outcome (io_map parse_sublayer (model_sublayers m)))
      as [network|e] eqn:Hlayers.
    + right. split; [done|]. exists network. split; [done|].
      by rewrite (io_bind_ok _ _ _ Hlayers).
    + left. split; [done|]. exists e. split; [done|].
      by rewrite (io_bind_raised _ _ _ Hlayers).
Qed.


(** X6.  A run of [main] that ends well has saved once, as its last step,
    to the output path, the network made of the layers that
    [parse_sublayer] returned for the descriptors of the model, one per
    descriptor and in their order; and every descriptor had a supported
    type. *)
Theorem main_success_saves_network (m : jsn_model) (output : string) :
  outcome (main m output) = Ok tt →
  ∃ (events : list event) (network : list layer),
    trace (main m output) = events ++ [TorchSave network output]
    ∧ Cases.saves_nothing events
    ∧ Forall2 (fun sl l => outcome (parse_sublayer sl) = Ok l)
              (model_sublayers m) network
    ∧ Forall (fun sl => type sl ∈ COMPATIBLE_LAYERS) (model_sublayers m).
Proof.
  intros Hwell.
  destruct (main_cases m output)
    as [(_ & Hexit & _)|[(_ & e' & _ & Hrun)|(Hsize & network & Hlayers & Hrun)]].
  - rewrite Hexit in Hwell. discriminate.
  - rewrite Hrun in Hwell. discriminate.
  - exists (trace (io_map parse_sublayer (model_sublayers m))), network.
    split; [by rewrite Hrun|].
    split; [apply io_map_trace, parse_sublayer_saves_nothing|].
    split; [by apply io_map_outcome|].
    apply size_empty_iff in Hsize. apply Forall_forall. intros sl Hsl.
    destruct (decide (type sl ∈ COMPATIBLE_LAYERS)) as [|Hbad]; [done|].
    destruct (not_elem_of_empty (C:=gset string) (type sl)).
    apply Hsize. unfold incompatible_types.
    apply elem_of_difference. split; [|done].
    apply elem_of_list_to_set, list_elem_of_fmap. by exists sl.
Qed.

Lemma supported_type (name : string) :
  name ∈ [ "convolution"; "GruMod"; "reverse"; "GlobalNormTwoState";
           "GlobalNormTwoStateCatMod" ] →
  name ∈ COMPATIBLE_LAYERS.
Proof.
  intros Hin.
  repeat (apply elem_of_cons in Hin as [->|Hin];
          [apply (bool_decide_unpack _); vm_compute; exact I|]).
  by apply elem_of_nil in Hin.
Qed.

(** X7.  Called on a descriptor of a type outside the supported set (which
    [main] never does, since it checks the types first), [parse_sublayer]
    binds no layer and stops with UnboundLocalError on [layer], before
    writing or constructing anything. *)
Theorem parse_sublayer_unsupported_type (sl : sublayer) :
  type sl ∉ COMPATIBLE_LAYERS →
  parse_sublayer sl = IO [] (Raise (UnboundLocalError "layer")).
Proof.
  intros Hbad. unfold Converter.parse_sublayer, Converter.build_layer.
  repeat match goal with
         | |- context [String.eqb (type sl) ?name] =>
             destruct (String.eqb_spec (type sl) name) as [Heq|_];
             [destruct Hbad; rewrite Heq; apply supported_type;
              repeat first [apply list_elem_of_here | apply list_elem_of_further]|]
         end.
  reflexivity.
Qed.

(** X8.  Of a [reverse] descriptor only the inner descriptor under
    [sublayers] is read: two such descriptors with the same inner
    descriptor are parsed alike, whatever sizes or parameters the outer
    ones carry. *)
Theorem parse_sublayer_reverse_inner (sl sl' inner : sublayer) :
  type sl = "reverse" → type sl' = "reverse" →
  sublayers sl = Some inner → sublayers sl' = Some inner →
  parse_sublayer sl = parse_sublayer sl'.
Proof.
  intros Hty Hty' Hinner Hinner'.
  unfold Converter.parse_sublayer, Converter.build_layer.
  by rewrite Hty, Hty', Hinner, Hinner'.
Qed.

End Checkpoint.

(** A layer of type [bogus]. *)
Lemma parse_sublayer_unsupported_type_witness :
  Converter.parse_sublayer Sample.keep_float64 Sample.fresh_state_dict
    Sample.store_state_dict Sample.four_bases Sample.plain_alphabet
    (Sample.descriptor "bogus" None ∅)
  = IO [] (Raise (UnboundLocalError "layer")).
Proof.
  apply parse_sublayer_unsupported_type.
  apply (bool_decide_eq_false_1 ("bogus" ∈ Converter.COMPATIBLE_LAYERS)).
  vm_compute. reflexivity.
Defined.

(** A bare and a decorated descriptor of the same reversed cell. *)
Lemma parse_sublayer_reverse_inner_witness :
  Converter.parse_sublayer Sample.keep_float64 Sample.fresh_state_dict
    Sample.store_state_dict Sample.four_bases Sample.plain_alphabet
    Cases.reverse_bare
  = Converter.parse_sublayer Sample.keep_float64 Sample.fresh_state_dict
      Sample.store_state_dict Sample.four_bases Sample.plain_alphabet
      Cases.reverse_decorated.
Proof.
  apply (parse_sublayer_reverse_inner Sample.keep_float64 Sample.fresh_state_dict
           Sample.store_state_dict Sample.four_bases Sample.plain_alphabet
           Cases.reverse_bare Cases.reverse_decorated
           (Sample.descriptor "GruMod" None Sample.gru_params)); reflexivity.
Defined.


(** A convolution followed by a recurrent layer. *)
Lemma main_success_saves_network_witness :
  ∃ (events : list Converter.event) (network : list Converter.layer),
    trace (Converter.main Sample.keep_float64 Sample.fresh_state_dict
             Sample.store_state_dict Sample.four_bases Sample.plain_alphabet
             Cases.two_layer_model "model.checkpoint")
    = events ++ [Converter.TorchSave network "model.checkpoint"]
    ∧ Cases.saves_nothing events
    ∧ Forall2 (fun sl l =>
                 outcome (Converter.parse_sublayer Sample.keep_float64
                            Sample.fresh_state_dict Sample.store_state_dict
                            Sample.four_bases Sample.plain_alphabet sl) = Ok l)
              (Converter.model_sublayers Cases.two_layer_model) network
    ∧ Forall (fun sl => Converter.type sl ∈ Converter.COMPATIBLE_LAYERS)
             (Converter.model_sublayers Cases.two_layer_model).
Proof.
  apply (main_success_saves_network Sample.keep_float64 Sample.fresh_state_dict
           Sample.store_state_dict Sample.four_bases Sample.plain_alphabet
           Cases.two_layer_model "model.checkpoint").
  vm_compute. reflexivity.
Defined.

(** ** More on the collapse alphabet *)

Section Alphabet.
Import Converter.

Lemma string_length_app (a b : string) :
  String.length (a +:+ b) = String.length a + String.length b.
Proof.
  induction a as [|c a IH]; [done|].
  change (String c a +:+ b) with (String c (a +:+ b)). cbn. by rewrite IH.
Qed.

Lemma string_app_assoc (a b c : string) : (a +:+ b) +:+ c = a +:+ (b +:+ c).
Proof.
  induction a as [|x a IH]; [done|].
  change (String x a +:+ b) with (String x (a +:+ b)).
  change (String x (a +:+ b) +:+ c) with (String x ((a +:+ b) +:+ c)).
  change (String x a +:+ (b +:+ c)) with (String x (a +:+ (b +:+ c))).
  by rewrite IH.
Qed.

Lemma string_get_some (s : string) (n : nat) :
  n < String.length s → ∃ c, String.get n s = Some c.
Proof.
  revert n. induction s as [|c s IH]; intros n Hn; cbn in *; [lia|].
  destruct n as [|n]; [by exists c|]. apply IH. lia.
Qed.

Lemma string_get_middle (a b : string) (c : ascii) :
  String.get (String.length a) (a +:+ String c b) = Some c.
Proof.
  induction a as [|x a IH]; [done|].
  change (String x a +:+ String c b) with (String x (a +:+ String c b)).
  cbn. exact IH.
Qed.

(** An index inside the string gives its symbol, an index past the end
    raises. *)
Lemma str_getitem_inside (s : string) (i : Z) :
  (0 ≤ i < Z.of_nat (String.length s))%Z →
  ∃ c, str_getitem s i = Ok (String c "").
Proof.
  intros Hi. unfold str_getitem.
  destruct (Z.ltb_spec i 0) as [|_]; [lia|].
  destruct (Z.leb_spec 0 i) as [_|]; [|lia].
  destruct (Z.ltb_spec i (Z.of_nat (String.length s))) as [_|]; [|lia].
  cbn [andb]. destruct (string_get_some s (Z.to_nat i)) as [c Hc]; [lia|].
  exists c. by rewrite Hc.
Qed.

Lemma str_getitem_past (s : string) (i : Z) :
  (Z.of_nat (String.length s) ≤ i)%Z → str_getitem s i = Raise IndexError.
Proof.
  intros Hi. unfold str_getitem.
  destruct (Z.ltb_spec i 0) as [|_]; [lia|].
  destruct (Z.ltb_spec i (Z.of_nat (String.length s))) as [|_]; [lia|].
  by rewrite andb_false_r.
Qed.

Lemma str_mul_length (c : ascii) (n : Z) :
  String.length (str_mul (String c "") n) = Z.to_nat n.
Proof.
  unfold str_mul. induction (Z.to_nat n) as [|k IH]; [done|].
  rewrite Nat.iter_succ, string_length_app, IH. done.
Qed.

Lemma alphabet_size_cons (n : Z) (rest : list Z) :
  Cases.alphabet_size (n :: rest) = (n + 1 + Cases.alphabet_size rest)%Z.
Proof. reflexivity. Qed.

Lemma alphabet_size_nonneg (can_nmods : list Z) :
  Forall (fun n => (0 ≤ n)%Z) can_nmods → (0 ≤ Cases.alphabet_size can_nmods)%Z.
Proof.
  induction 1 as [|n rest Hn _ IH]; [done|]. rewrite alphabet_size_cons. lia.
Qed.

Lemma collapse_alphabet_loop_length (output_alphabet : string) (can_nmods : list Z) :
  ∀ (curr_can_base : Z) (collapse : string),
    (0 ≤ curr_can_base)%Z →
    Forall (fun n => (0 ≤ n)%Z) can_nmods →
    (curr_can_base + Cases.alphabet_size can_nmods
     ≤ Z.of_nat (String.length output_alphabet))%Z →
    ∃ result,
      collapse_alphabet_loop output_alphabet can_nmods curr_can_base collapse
      = Ok result
      ∧ Z.of_nat (String.length result)
        = (Z.of_nat (String.length collapse) + Cases.alphabet_size can_nmods)%Z.
Proof.
  induction can_nmods as [|n rest IH]; intros curr collapse Hcurr Hnonneg Hfits.
  - exists collapse. split; [done|]. cbn. lia.
  - apply Forall_cons in Hnonneg as [Hn Hrest].
    pose proof (alphabet_size_nonneg rest Hrest) as Hsize.
    rewrite alphabet_size_cons in Hfits.
    cbn [collapse_alphabet_loop].
    destruct (str_getitem_inside output_alphabet curr) as [c Hc]; [lia|].
    rewrite Hc.
    destruct (IH (curr + (n + 1))%Z (collapse +:+ str_mul (String c "") (n + 1)))
      as (result & Hrun & Hlen); [lia|done|lia|].
    exists result. split; [done|].
    rewrite Hlen, string_length_app, str_mul_length, alphabet_size_cons. lia.
Qed.

(** X9.  When no canonical base has a negative number of modifications and
    the output alphabet has at least one symbol for every canonical base
    and every modification, the collapse alphabet is derived, and it has
    exactly that many symbols. *)
Theorem collapse_alphabet_length (output_alphabet : string) (can_nmods : list Z) :
  Forall (fun n => (0 ≤ n)%Z) can_nmods →
  (Cases.alphabet_size can_nmods ≤ Z.of_nat (String.length output_alphabet))%Z →
  ∃ collapse,
    derive_collapse_alphabet output_alphabet can_nmods = Ok collapse
    ∧ Z.of_nat (String.length collapse) = Cases.alphabet_size can_nmods.
Proof.
  intros Hnonneg Hfits.
  destruct (collapse_alphabet_loop_length output_alphabet can_nmods 0 "")
    as (collapse & Hrun & Hlen); [lia|done|lia|].
  exists collapse. split; [done|]. rewrite Hlen. cbn. lia.
Qed.

Lemma collapse_alphabet_loop_short (output_alphabet : string) (can_nmods : list Z) :
  ∀ (curr_can_base : Z) (collapse : string),
    can_nmods ≠ [] →
    (0 ≤ curr_can_base)%Z →
    Forall (fun n => (0 ≤ n)%Z) can_nmods →
    (Z.of_nat (String.length output_alphabet)
     < curr_can_base + Z.of_nat (length can_nmods))%Z →
    collapse_alphabet_loop output_alphabet can_nmods curr_can_base collapse
    = Raise IndexError.
Proof.
  induction can_nmods as [|n rest IH];
    intros curr collapse Hsome Hcurr Hnonneg Hshort; [done|].
  apply Forall_cons in Hnonneg as [Hn Hrest]. cbn [collapse_alphabet_loop].
  destruct (decide (Z.of_nat (String.length output_alphabet) ≤ curr)%Z) as [Hpast|Hin].
  - by rewrite str_getitem_past.
  - destruct (str_getitem_inside output_alphabet curr) as [c Hc]; [lia|].
    rewrite Hc. cbn [length] in Hshort.
    apply IH; [destruct rest; [cbn in Hshort; lia|done]|lia|done|lia].
Qed.

(** X10.  When the output alphabet has fewer symbols than there are
    canonical bases (none with a negative number of modifications), the
    derivation raises IndexError. *)
Theorem collapse_alphabet_too_short (output_alphabet : string) (can_nmods : list Z) :
  Forall (fun n => (0 ≤ n)%Z) can_nmods →
  String.length output_alphabet < length can_nmods →
  derive_collapse_alphabet output_alphabet can_nmods = Raise IndexError.
Proof.
  intros Hnonneg Hshort.
  apply collapse_alphabet_loop_short; [destruct can_nmods; [cbn in Hshort; lia|done]|lia|done|lia].
Qed.

Lemma collapse_alphabet_loop_unmodified (rest : string) : ∀ (seen : string),
  collapse_alphabet_loop (seen +:+ rest) (replicate (String.length rest) 0%Z)
    (Z.of_nat (String.length seen)) seen
  = Ok (seen +:+ rest).
Proof.
  induction rest as [|c rest IH]; intros seen.
  - cbn. by rewrite string_app_empty.
  - cbn [String.length replicate collapse_alphabet_loop].
    assert (Hget : str_getitem (seen +:+ String c rest) (Z.of_nat (String.length seen))
                   = Ok (String c "")).
    { unfold str_getitem. rewrite string_length_app. cbn [String.length].
      destruct (Z.ltb_spec (Z.of_nat (String.length seen)) 0) as [|_]; [lia|].
      destruct (Z.leb_spec 0 (Z.of_nat (String.length seen))) as [_|]; [|lia].
      destruct (Z.ltb_spec (Z.of_nat (String.length seen))
                  (Z.of_nat (String.length seen + S (String.length rest)))) as [_|];
        [|lia].
      cbn [andb]. by rewrite Nat2Z.id, string_get_middle. }
    rewrite Hget.
    change (str_mul (String c "") (0 + 1)) with (String c "").
    specialize (IH (seen +:+ String c "")).
    rewrite string_app_assoc in IH.
    change (String c "" +:+ rest) with (String c rest) in IH.
    rewrite string_length_app in IH. cbn [String.length] in IH.
    replace (Z.of_nat (String.length seen) + (0 + 1))%Z
      with (Z.of_nat (String.length seen + 1)) by lia.
    exact IH.
Qed.

(** X11.  An output alphabet without modified bases is its own collapse
    alphabet: with a zero for each of its symbols the derivation returns
    the alphabet unchanged. *)
Theorem collapse_alphabet_unmodified_identity (output_alphabet : string) :
  derive_collapse_alphabet output_alphabet
    (replicate (String.length output_alphabet) 0%Z)
  = Ok output_alphabet.
Proof. apply (collapse_alphabet_loop_unmodified output_alphabet ""). Qed.

End Alphabet.

(** An alphabet with one modified base after each of [A] and [C]. *)
Lemma collapse_alphabet_length_witness :
  ∃ collapse,
    Converter.derive_collapse_alphabet "AYCZGT" [1; 1; 0; 0]%Z = Ok collapse
    ∧ Z.of_nat (String.length collapse) = Cases.alphabet_size [1; 1; 0; 0]%Z.
Proof.
  apply collapse_alphabet_length.
  - repeat (apply Forall_cons; split; [lia|]). apply Forall_nil_2.
  - vm_compute. discriminate.
Defined.

(** Three symbols for four canonical bases. *)
Lemma collapse_alphabet_too_short_witness :
  Converter.derive_collapse_alphabet "ACG" [0; 0; 0; 0]%Z = Raise IndexError.
Proof.
  apply collapse_alphabet_too_short.
  - repeat (apply Forall_cons; split; [lia|]). apply Forall_nil_2.
  - cbn. lia.
Defined.

(** ** More on reading an alignment summary *)

Section Schemas.
Import Calibrator.

Lemma field_column (t : table) (name : string) (c : column) :
  CalibratorCases.column_of t name = Some c → field t name = mret c.
Proof.
  unfold CalibratorCases.column_of, field.
  destruct (list_find (fun kv => kv.1 = name) t) as [[i [k c']]|]; [|done].
  cbn. by intros [= ->].
Qed.

(** X12.  A table with the four columns of a Guppy summary, the accuracy a
    float64 column and the two strand positions int64 columns, is read as a
    Guppy summary whatever else it holds: one line is printed, the
    identifiers are returned as they are, every negative accuracy is
    replaced by NaN and the others are kept, and every length is the strand
    end minus the strand start (in int64). *)
Theorem get_alignment_data_guppy (t : table) (ids : column)
    (accuracies : list float) (strand_end strand_start : list Z) :
  CalibratorCases.column_of t "read_id" = Some ids →
  CalibratorCases.column_of t "alignment_accuracy" = Some (FloatCol accuracies) →
  CalibratorCases.column_of t "alignment_strand_end" = Some (IntCol strand_end) →
  CalibratorCases.column_of t "alignment_strand_start" = Some (IntCol strand_start) →
  get_alignment_data t
  = IO [Print [VStr "Interpreted alignment file as Guppy output"] nl]
       (Ok (ids,
            FloatCol (CalibratorCases.missing_if_negative <$> accuracies),
            IntCol (zip_with (fun e s => wrap64 (e - s)) strand_end strand_start))).
Proof.
  intros Hids Hacc Hend Hstart. unfold get_alignment_data, guppy_attempt.
  rewrite (field_column _ _ _ Hids), io_bind_ret.
  rewrite (field_column _ _ _ Hacc), io_bind_ret.
  rewrite (field_column _ _ _ Hend), io_bind_ret.
  rewrite (field_column _ _ _ Hstart), io_bind_ret.
  reflexivity.
Qed.

(** X13.  A table that lacks a column of the Guppy schema and has the six
    columns of a Taiyaki summary, the accuracy a float64 column and the
    four others int64 columns, is read as a Taiyaki summary: one line is
    printed, identifiers and accuracies are returned as they are (a
    negative accuracy stays negative), and every length is reference end
    minus reference start plus insertions minus deletions (in int64). *)
Theorem get_alignment_data_taiyaki (t : table) (ids accuracies : column)
    (reference_end reference_start insertion deletion : list Z) :
  (∃ name, name ∈ primary_columns ∧ lacks t name) →
  CalibratorCases.column_of t "query" = Some ids →
  CalibratorCases.column_of t "accuracy" = Some accuracies →
  CalibratorCases.column_of t "reference_end" = Some (IntCol reference_end) →
  CalibratorCases.column_of t "reference_start" = Some (IntCol reference_start) →
  CalibratorCases.column_of t "insertion" = Some (IntCol insertion) →
  CalibratorCases.column_of t "deletion" = Some (IntCol deletion) →
  get_alignment_data t
  = IO [Print [VStr "Interpreted alignment file as Taiyaki output"] nl]
       (Ok (ids, accuracies,
            IntCol (zip_with (fun u v => wrap64 (u - v))
                      (zip_with (fun u v => wrap64 (u + v))
                         (zip_with (fun u v => wrap64 (u - v))
                            reference_end reference_start)
                         insertion)
                      deletion))).
Proof.
  intros Hprimary Hids Hacc Hend Hstart Hins Hdel. unfold get_alignment_data.
  rewrite guppy_attempt_fails, try_except_caught by done.
  unfold taiyaki_attempt.
  rewrite (field_column _ _ _ Hids), io_bind_ret.
  rewrite (field_column _ _ _ Hacc), io_bind_ret.
  rewrite (field_column _ _ _ Hend), io_bind_ret.
  rewrite (field_column _ _ _ Hstart), io_bind_ret.
  change (np_sub (IntCol reference_end) (IntCol reference_start))
    with (mret (M:=io event)
            (IntCol (zip_with (fun u v => wrap64 (u - v)) reference_end reference_start))).
  rewrite io_bind_ret.
  rewrite (field_column _ _ _ Hins), io_bind_ret.
  change (np_add (IntCol ?a) (IntCol ?b))
    with (mret (M:=io event) (IntCol (zip_with (fun u v => wrap64 (u + v)) a b))).
  rewrite io_bind_ret.
  rewrite (field_column _ _ _ Hdel), io_bind_ret.
  reflexivity.
Qed.

End Schemas.

(** A Guppy summary with an unaligned read. *)
Lemma get_alignment_data_guppy_witness :
  Calibrator.get_alignment_data CalibratorCases.guppy_table
  = IO [Calibrator.Print
          [Calibrator.VStr "Interpreted alignment file as Guppy output"] nl]
       (Ok (Calibrator.StrCol ["r1"; "r2"; "r3"],
            Calibrator.FloatCol
              (CalibratorCases.missing_if_negative <$> [0.9; -1; 0.85]%float),
            Calibrator.IntCol
              (zip_with (fun e s => Calibrator.wrap64 (e - s))
                        [510; -1; 300]%Z [10; -1; 0]%Z))).
Proof. apply get_alignment_data_guppy; reflexivity. Defined.

(** A Taiyaki summary. *)
Lemma get_alignment_data_taiyaki_witness :
  Calibrator.get_alignment_data CalibratorCases.taiyaki_table
  = IO [Calibrator.Print
          [Calibrator.VStr "Interpreted alignment file as Taiyaki output"] nl]
       (Ok (Calibrator.StrCol ["r1"; "r2"], Calibrator.FloatCol [0.9; -1]%float,
            Calibrator.IntCol
              (zip_with (fun u v => Calibrator.wrap64 (u - v))
                 (zip_with (fun u v => Calibrator.wrap64 (u + v))
                    (zip_with (fun u v => Calibrator.wrap64 (u - v))
                       [600; 407]%Z [100; 7]%Z)
                    [12; 3]%Z)
                 [20; 5]%Z))).
Proof.
  apply get_alignment_data_taiyaki; try reflexivity.
  exists "read_id". split; [left|reflexivity].
Defined.

(** A table with neither schema. *)
Lemma get_alignment_data_neither_witness :
  Calibrator.get_alignment_data CalibratorSample.table_as_message_asks
  = IO [] (Raise (Exception
      (Calibrator.missing_columns_prefix +:+ ". Columns are " +:+
       repr_list (CalibratorSample.table_as_message_asks.*1)))).
Proof.
  apply get_alignment_data_neither.
  - exists "read_id". split; [left|reflexivity].
  - exists "query". split; [left|reflexivity].
  - intros i l Hfound. vm_compute in Hfound. discriminate.
  - intros i l Hfound. vm_compute in Hfound. discriminate.
  - intros i l Hfound. vm_compute in Hfound. discriminate.
Defined.

(** ** More on the join and the filters *)

Section JoinAndFilter.
Import Calibrator.

(** X15.  For every summary and every list of reads the join ends well,
    with two arrays that have one entry per read, in the order of the
    reads.  The entry of a read is NaN and -1 when no record has its
    identifier; the accuracy and length of its record when there is one;
    and with several records those of one of them: the first whose
    accuracy is the maximum when all their accuracies are numbers, the
    first whose accuracy is NaN otherwise. *)
Theorem merge_chooses_per_read (fastq_ids : list string) (records : list alignment) :
  ∃ (accuracies : list float) (lens : list Z),
    outcome (merge_align_fastq_data fastq_ids (alignment_id <$> records)
               (alignment_accuracy <$> records) (aligned_length <$> records))
    = Ok (accuracies, lens)
    ∧ length accuracies = length fastq_ids
    ∧ length lens = length fastq_ids
    ∧ ∀ (i : nat) (id : string),
        fastq_ids !! i = Some id →
        ∃ (a : float) (l : Z),
          accuracies !! i = Some a ∧ lens !! i = Some l
          ∧ (matches_of id records = [] → a = PrimFloat.nan ∧ l = (-1)%Z)
          ∧ (∀ r, matches_of id records = [r]
                  → a = alignment_accuracy r ∧ l = aligned_length r)
          ∧ (2 ≤ length (matches_of id records) →
             ∃ loc r,
               matches_of id records !! loc = Some r
               ∧ a = alignment_accuracy r ∧ l = aligned_length r
               ∧ (Forall number (alignment_accuracy <$> matches_of id records)
                  → first_maximum (alignment_accuracy <$> matches_of id records) loc)
               ∧ (¬ Forall number (alignment_accuracy <$> matches_of id records)
                  → first_nan (alignment_accuracy <$> matches_of id records) loc)).
Proof.
  eexists _, _. rewrite merge_align_fastq_data_run. split; [reflexivity|].
  rewrite !length_fmap. split; [done|]. split; [done|].
  intros i id Hid.
  exists (chosen (matches_of id records)).1, (chosen (matches_of id records)).2.
  rewrite !list_lookup_fmap, Hid. split; [done|]. split; [done|].
  destruct (chosen_spec (matches_of id records)) as (Hnone & Hone & Hmany).
  split; [|split].
  - intros Hms. by rewrite (Hnone Hms).
  - intros r Hms. by rewrite (Hone r Hms).
  - intros Hlen. destruct (Hmany Hlen) as (loc & r & Hloc & Hchosen & Hmax & Hnan).
    exists loc, r. by rewrite Hchosen.
Qed.

(** X16.  The three lines the join prints give the number of reads, the
    number of reads without a record in the summary, and the number of
    reads with more than one. *)
Theorem merge_reports_counts (fastq_ids : list string) (records : list alignment) :
  trace (merge_align_fastq_data fastq_ids (alignment_id <$> records)
           (alignment_accuracy <$> records) (aligned_length <$> records))
  = [Print [VFormat (nl +:+ "{} reads read from fastq.")
              [VInt (Z.of_nat (length fastq_ids))]] nl;
     Print [VFormat "    {} not found in alignment summary."
              [VInt (Z.of_nat (length (List.filter
                 (fun id => bool_decide (length (matches_of id records) = 0))
                 fastq_ids)))]] nl;
     Print [VFormat ("    {} with more than one alignment." +:+ nl)
              [VInt (Z.of_nat (length (List.filter
                 (fun id => bool_decide (2 ≤ length (matches_of id records)))
                 fastq_ids)))]] nl].
Proof. by rewrite merge_align_fastq_data_run. Qed.



End JoinAndFilter.

(** ** More on reading fastq files *)

Section Fastq.
Import Calibrator.
Variable np_power : float → float → float.
Variable np_log10 : float → float.
Variable np_mean : list float → float.
Variable SeqIO_parse : string → result (list (string * list Z)).

Abbreviation fastq_file_qscore := (fastq_file_qscore np_power np_log10 np_mean).
Abbreviation read_record := (read_record np_power np_log10 np_mean).
Abbreviation read_records := (read_records np_power np_log10 np_mean).
Abbreviation read_files := (read_files np_power np_log10 np_mean SeqIO_parse).
Abbreviation read_fastqs := (read_fastqs np_power np_log10 np_mean SeqIO_parse).

Abbreviation extended := (CalibratorCases.extended fastq_file_qscore).

Lemma read_record_outcome (reads_per_dot : Z) (st : fastq_lists)
    (record : string * list Z) :
  reads_per_dot ≠ 0%Z →
  outcome (read_record reads_per_dot st record) = Ok (extended st [record]).
Proof.
  intros Hdot. unfold Calibrator.read_record.
  rewrite outcome_bind, bool_decide_eq_false_2 by done. cbn [outcome mret io_mret io_ret].
  rewrite outcome_bind. by case_bool_decide.
Qed.

Lemma extended_nil st : extended st [] = st.
Proof. destruct st. unfold CalibratorCases.extended. cbn. by rewrite !app_nil_r. Qed.

Lemma extended_app st records records' :
  extended (extended st records) records' = extended st (records ++ records').
Proof. unfold CalibratorCases.extended. cbn. by rewrite !fmap_app, !app_assoc. Qed.

Lemma read_records_all (reads_per_dot : Z) (records : list (string * list Z)) :
  reads_per_dot ≠ 0%Z →
  ∀ st, outcome (read_records None reads_per_dot st records) = Ok (extended st records).
Proof.
  intros Hdot. induction records as [|record records IH]; intros st.
  - cbn. by rewrite extended_nil.
  - cbn [Calibrator.read_records]. rewrite outcome_bind, read_record_outcome by done.
    cbn [reached]. rewrite IH. by rewrite extended_app.
Qed.

Lemma read_files_all (reads_per_dot : Z) (fastqlist : list string)
    (parsed : list (list (string * list Z))) :
  reads_per_dot ≠ 0%Z →
  Forall2 (fun file records => SeqIO_parse file = Ok records) fastqlist parsed →
  ∀ st, outcome (read_files None reads_per_dot st fastqlist)
        = Ok (extended st (concat parsed)).
Proof.
  intros Hdot Hparsed.
  induction Hparsed as [|file records fastqlist parsed Hfile _ IH]; intros st.
  - cbn. by rewrite extended_nil.
  - cbn [Calibrator.read_files concat]. rewrite outcome_bind, Hfile.
    cbn [outcome lift]. rewrite outcome_bind, read_records_all by done.
    cbn [reached]. rewrite IH. by rewrite extended_app.
Qed.

(** X18.  Without a maximum, and with a non-zero dot interval, [read_fastqs]
    returns every record of every file that parses, file after file and in
    the order of each file: the identifiers, for each read its mean quality
    score or [None] when it has no bases, and its number of bases. *)
Theorem read_fastqs_reads_every_record (fastqlist : list string)
    (parsed : list (list (string * list Z))) (reads_per_dot : Z) :
  reads_per_dot ≠ 0%Z →
  Forall2 (fun file records => SeqIO_parse file = Ok records) fastqlist parsed →
  outcome (read_fastqs fastqlist None reads_per_dot)
  = Ok ((concat parsed).*1,
        CalibratorCases.score_of fastq_file_qscore <$> concat parsed,
        CalibratorCases.bases_of <$> concat parsed).
Proof.
  intros Hdot Hparsed. unfold Calibrator.read_fastqs.
  rewrite outcome_bind. cbn [outcome print emit].
  rewrite outcome_bind, (read_files_all _ _ parsed) by done.
  reflexivity.
Qed.

Lemma read_record_lengths (reads_per_dot : Z) (st st' : fastq_lists)
    (record : string * list Z) :
  outcome (read_record reads_per_dot st record) = Ok st' →
  length (read_id_list st') = S (length (read_id_list st))
  ∧ length (mean_qscore_list st') = S (length (mean_qscore_list st))
  ∧ length (length_list st') = S (length (length_list st)).
Proof.
  unfold Calibrator.read_record. rewrite outcome_bind.
  case_bool_decide; [done|]. cbn [outcome mret io_mret io_ret].
  rewrite outcome_bind. case_bool_decide; cbn; intros [= <-]; cbn;
    rewrite !length_app; cbn; lia.
Qed.

Lemma below_within maxreads st :
  CalibratorCases.below maxreads st → CalibratorCases.within maxreads st.
Proof. intros (? & ? & Hn). repeat split; try done. intros n ?%Hn. lia. Qed.

Lemma not_reached_below maxreads st :
  CalibratorCases.within maxreads st → reached maxreads st = false → CalibratorCases.below maxreads st.
Proof.
  intros (? & ? & Hn) Hreached. repeat split; try done. intros n ->.
  cbn in Hreached. apply bool_decide_eq_false in Hreached. lia.
Qed.

Lemma read_record_within maxreads reads_per_dot st st' record :
  CalibratorCases.below maxreads st →
  outcome (read_record reads_per_dot st record) = Ok st' →
  CalibratorCases.within maxreads st'.
Proof.
  intros (Hq & Hl & Hn) (Hids & Hqs & Hls)%read_record_lengths.
  repeat split; [lia..|]. intros n ?%Hn. lia.
Qed.

Lemma read_records_within maxreads reads_per_dot records : ∀ st st',
  CalibratorCases.below maxreads st →
  outcome (read_records maxreads reads_per_dot st records) = Ok st' →
  CalibratorCases.within maxreads st'.
Proof.
  induction records as [|record records IH]; intros st st' Hbelow.
  - cbn. intros [= <-]. by apply below_within.
  - cbn [Calibrator.read_records]. rewrite outcome_bind.
    destruct (outcome (read_record reads_per_dot st record)) as [st1|e] eqn:Hrecord;
      [|done].
    pose proof (read_record_within _ _ _ _ _ Hbelow Hrecord) as Hwithin.
    destruct (reached maxreads st1) eqn:Hreached.
    + cbn. by intros [= <-].
    + apply IH. by apply not_reached_below.
Qed.

Lemma read_files_within maxreads reads_per_dot fastqlist : ∀ st st',
  CalibratorCases.below maxreads st →
  outcome (read_files maxreads reads_per_dot st fastqlist) = Ok st' →
  CalibratorCases.within maxreads st'.
Proof.
  induction fastqlist as [|file fastqlist IH]; intros st st' Hbelow.
  - cbn. intros [= <-]. by apply below_within.
  - cbn [Calibrator.read_files]. rewrite outcome_bind.
    destruct (SeqIO_parse file) as [records|e]; [|done]. cbn [outcome lift].
    rewrite outcome_bind.
    destruct (outcome (read_records maxreads reads_per_dot st records))
      as [st1|e] eqn:Hrecords; [|done].
    pose proof (read_records_within _ _ _ _ _ Hbelow Hrecords) as Hwithin.
    destruct (reached maxreads st1) eqn:Hreached.
    + cbn. by intros [= <-].
    + apply IH. by apply not_reached_below.
Qed.

(** X19.  When [read_fastqs] ends well its three arrays have one length,
    and with a maximum of [n] reads they hold at most [n] reads, or at most
    one when [n] is not positive (the maximum is tested after a read has
    been taken). *)
Theorem read_fastqs_maxreads (fastqlist : list string) (maxreads : option Z)
    (reads_per_dot : Z) (ids : list string) (scores : list (option float))
    (lens : list Z) :
  outcome (read_fastqs fastqlist maxreads reads_per_dot) = Ok (ids, scores, lens) →
  length scores = length ids
  ∧ length lens = length ids
  ∧ ∀ n, maxreads = Some n → (Z.of_nat (length ids) ≤ Z.max 1 n)%Z.
Proof.
  unfold Calibrator.read_fastqs. rewrite outcome_bind. cbn [outcome print emit].
  rewrite outcome_bind.
  destruct (outcome (read_files maxreads reads_per_dot (FastqLists [] [] []) fastqlist))
    as [st|e] eqn:Hfiles; [|done].
  cbn. intros [= <- <- <-].
  apply (read_files_within maxreads reads_per_dot fastqlist (FastqLists [] [] []) st);
    [|done].
  repeat split; [done..|]. intros n _. cbn. lia.
Qed.

End Fastq.

(** Two files, three reads. *)
Lemma read_fastqs_reads_every_record_witness :
  outcome (Calibrator.read_fastqs CalibratorSample.power CalibratorSample.log10
             CalibratorSample.mean CalibratorCases.two_files
             ["a.fastq"; "b.fastq"] None 100)
  = Ok ((concat [[("read1", [30; 31]%Z); ("read2", [])]; [("read3", [20]%Z)]]).*1,
        CalibratorCases.score_of
          (Calibrator.fastq_file_qscore CalibratorSample.power CalibratorSample.log10
             CalibratorSample.mean)
          <$> concat [[("read1", [30; 31]%Z); ("read2", [])]; [("read3", [20]%Z)]],
        CalibratorCases.bases_of
          <$> concat [[("read1", [30; 31]%Z); ("read2", [])]; [("read3", [20]%Z)]]).
Proof.
  apply read_fastqs_reads_every_record; [discriminate|].
  repeat constructor.
Defined.

(** The same files with at most two reads (the numeric stand-ins of
    [CalibratorSample] give the first read the score -100). *)
Lemma read_fastqs_maxreads_witness :
  length [Some (-100)%float; None] = length ["read1"; "read2"]
  ∧ length [2%Z; 0%Z] = length ["read1"; "read2"]
  ∧ ∀ n, Some 2%Z = Some n → (Z.of_nat (length ["read1"; "read2"]) ≤ Z.max 1 n)%Z.
Proof.
  apply (read_fastqs_maxreads CalibratorSample.power CalibratorSample.log10
           CalibratorSample.mean CalibratorCases.two_files
           ["a.fastq"; "b.fastq"] (Some 2%Z) 100).
  vm_compute. reflexivity.
Defined.

(** ** More on the calibrator script and the regression *)

Section Pipeline.
Import Calibrator.
Variable np_power : float → float → float.
Variable np_log10 : float → float.
Variable np_mean : list float → float.
Variable SeqIO_parse : string → result (list (string * list Z)).
Variable sm_RLM_fit : list float → list float → result (list float).
Variable os_listdir : string → result (list string).
Variable fileio_readtsv : string → result table.

Abbreviation single_read_accuracy_scatter :=
  (single_read_accuracy_scatter np_log10 sm_RLM_fit).
Abbreviation main :=
  (main np_power np_log10 np_mean SeqIO_parse sm_RLM_fit os_listdir fileio_readtsv).

(** X20.  With neither [--fastq] nor [--input_directory] the script prints
    its banner, the line about the alignment summary if one is given, and
    fails with the exception that asks for a directory or a fastq file;
    no file is read. *)
Theorem main_without_input (a : args) :
  fastq a = None →
  input_directory a = None →
  main a
  = IO ([Print [VStr "Calculating shift and scale parameters to calibrate per-read"] nl;
         Print [VStr "accuracy estimates from q scores."] nl]
        ++ match alignment_summary a with
           | Some file => [Print [VStr "Using alignment summary file at "; VStr file] nl]
           | None => []
           end)%list
       (Raise (Exception ("You must supply a directory containing " +:+
                          "fastqs or the path to a fastq file"))).
Proof.
  intros Hfastq Hdir. unfold Calibrator.main. rewrite Hfastq, Hdir.
  destruct (alignment_summary a); reflexivity.
Qed.

Lemma filter_fastq_none (files : list string) :
  Forall (fun fi => endswith fi ".fastq" = false) files →
  filter (fun fi => endswith fi ".fastq") files = [].
Proof.
  induction 1 as [|x l Hx _ IH]; [done|].
  rewrite filter_cons_False; [exact IH|]. rewrite Hx. exact id.
Qed.

Lemma format_no_fastq (dir : string) :
  format "No fastq files found in {}" [dir] = "No fastq files found in " +:+ dir.
Proof.
  change (format "No fastq files found in {}" [dir])
    with ("No fastq files found in " +:+ (dir +:+ "")).
  by rewrite string_app_empty.
Qed.

(** X21.  When the input directory lists no file that ends in [.fastq],
    the script fails after its banner with the exception that names the
    directory, also when [--fastq] names a file: the directory is looked at
    first. *)
Theorem main_directory_without_fastq (a : args) (dir : string) (files : list string) :
  input_directory a = Some dir →
  os_listdir dir = Ok files →
  Forall (fun fi => endswith fi ".fastq" = false) files →
  main a
  = IO [Print [VStr "Calculating shift and scale parameters to calibrate per-read"] nl;
        Print [VStr "accuracy estimates from q scores."] nl]
       (Raise (Exception ("No fastq files found in " +:+ dir))).
Proof.
  intros Hdir Hfiles Hnone. unfold Calibrator.main. rewrite Hdir, Hfiles.
  unfold print.
  repeat (first [ rewrite io_bind_assoc | rewrite io_bind_ret
                | apply io_bind_emit_eq ]; cbn beta iota).
  change (lift (Ok files)) with (mret (M:=io event) files).
  repeat (first [ rewrite io_bind_assoc | rewrite io_bind_ret ]; cbn beta iota).
  rewrite filter_fastq_none by done.
  rewrite format_no_fastq. reflexivity.
Qed.

Lemma ltb_irrefl (x : float) : PrimFloat.ltb x x = false.
Proof.
  rewrite ltb_spec. unfold SFltb.
  destruct (sf_is_nan (Prim2SF x)) eqn:Hnan.
  - by destruct (Prim2SF x).
  - by rewrite SFcompare_refl.
Qed.

Lemma empirical_clamped (max_alignment_score : float) (accuracies : list float) :
  Forall (fun v => PrimFloat.ltb max_alignment_score v = false)
         (CalibratorCases.empirical np_log10 max_alignment_score accuracies).
Proof.
  unfold CalibratorCases.empirical. apply Forall_fmap, Forall_fmap, Forall_true.
  intros a. cbn.
  destruct (PrimFloat.ltb max_alignment_score (PrimFloat.mul _ _)) eqn:Hlt;
    [apply ltb_irrefl|done].
Qed.

(** X22.  The first thing [single_read_accuracy_scatter] does is to plot
    the mean q-scores against the empirical scores, one for each accuracy,
    and none of these is above the maximum alignment score. *)
Theorem single_read_accuracy_scatter_clamps (accuracies meanqs : list float)
    (max_alignment_score : float) :
  ∃ y rest,
    trace (single_read_accuracy_scatter accuracies meanqs max_alignment_score)
    = PltScatter meanqs y :: rest
    ∧ length y = length accuracies
    ∧ Forall (fun v => PrimFloat.ltb max_alignment_score v = false) y.
Proof.
  exists (CalibratorCases.empirical np_log10 max_alignment_score accuracies).
  eexists. split; [|split].
  - unfold Calibrator.single_read_accuracy_scatter. rewrite trace_bind.
    cbn [trace emit app outcome]. reflexivity.
  - unfold CalibratorCases.empirical. by rewrite !length_fmap.
  - apply empirical_clamped.
Qed.

(** X23.  When the robust fit of the empirical scores on the mean q-scores
    gives the parameters intercept [c] and slope [m], and there is at least
    one read, [single_read_accuracy_scatter] returns the slope first and the
    intercept second, and it has drawn the fitted line and the identity
    between the least and the greatest mean q-score. *)
Theorem single_read_accuracy_scatter_returns_slope_first
    (accuracies meanqs : list float) (max_alignment_score c m : float) :
  meanqs ≠ [] →
  sm_RLM_fit (CalibratorCases.empirical np_log10 max_alignment_score accuracies) meanqs
  = Ok [c; m] →
  ∃ lo hi,
    outcome (np_min meanqs) = Ok lo ∧ outcome (np_max meanqs) = Ok hi
    ∧ single_read_accuracy_scatter accuracies meanqs max_alignment_score
      = IO [PltScatter meanqs
              (CalibratorCases.empirical np_log10 max_alignment_score accuracies);
            PltPlot [lo; hi]
              [PrimFloat.add c (PrimFloat.mul m lo); PrimFloat.add c (PrimFloat.mul m hi)]
              (VFormat "slope={:3.2f} intercept={:3.2f}" [VFloat m; VFloat c]);
            PltPlot [lo; hi] [lo; hi] (VStr "y=x");
            PltAxes]
           (Ok (m, c)).
Proof.
  intros Hreads Hfit. destruct meanqs as [|q meanqs']; [done|].
  eexists _, _. split; [reflexivity|]. split; [reflexivity|].
  unfold Calibrator.single_read_accuracy_scatter, calculate_regression.
  fold (CalibratorCases.empirical np_log10 max_alignment_score accuracies).
  rewrite Hfit. reflexivity.
Qed.

(** X24.  Without a mean q-score the regression never returns: whatever
    the fit does with no predictor, [single_read_accuracy_scatter] ends with
    an error (that of the fit, or ValueError from unpacking its parameters
    or from the minimum of an empty array), after the scatter plot alone. *)
Theorem single_read_accuracy_scatter_no_reads (accuracies : list float)
    (max_alignment_score : float) :
  ∃ e, single_read_accuracy_scatter accuracies [] max_alignment_score
       = IO [PltScatter [] (CalibratorCases.empirical np_log10 max_alignment_score
                              accuracies)]
            (Raise e).
Proof.
  unfold Calibrator.single_read_accuracy_scatter, calculate_regression.
  fold (CalibratorCases.empirical np_log10 max_alignment_score accuracies).
  destruct (sm_RLM_fit _ []) as [[|c [|m [|]]]|e]; eexists; reflexivity.
Qed.

End Pipeline.

(** A run with an alignment summary and no fastq input. *)
Lemma main_without_input_witness :
  Calibrator.main CalibratorSample.power CalibratorSample.log10
    CalibratorSample.mean CalibratorSample.one_read CalibratorSample.no_fit
    CalibratorSample.no_directory CalibratorSample.no_table
    CalibratorCases.no_input
  = IO [Calibrator.Print
          [Calibrator.VStr "Calculating shift and scale parameters to calibrate per-read"] nl;
        Calibrator.Print [Calibrator.VStr "accuracy estimates from q scores."] nl;
        Calibrator.Print [Calibrator.VStr "Using alignment summary file at ";
                          Calibrator.VStr "summary.txt"] nl]
       (Raise (Exception ("You must supply a directory containing " +:+
                          "fastqs or the path to a fastq file"))).
Proof.
  apply (main_without_input CalibratorSample.power CalibratorSample.log10
           CalibratorSample.mean CalibratorSample.one_read CalibratorSample.no_fit
           CalibratorSample.no_directory CalibratorSample.no_table
           CalibratorCases.no_input); reflexivity.
Defined.

(** A run on the directory [run1], which holds no fastq file, with
    [--fastq reads.fastq]. *)
Lemma main_directory_without_fastq_witness :
  Calibrator.main CalibratorSample.power CalibratorSample.log10
    CalibratorSample.mean CalibratorSample.one_read CalibratorSample.no_fit
    CalibratorCases.other_files CalibratorSample.no_table
    CalibratorCases.directory_and_fastq
  = IO [Calibrator.Print
          [Calibrator.VStr "Calculating shift and scale parameters to calibrate per-read"] nl;
        Calibrator.Print [Calibrator.VStr "accuracy estimates from q scores."] nl]
       (Raise (Exception ("No fastq files found in " +:+ "run1"))).
Proof.
  apply (main_directory_without_fastq CalibratorSample.power CalibratorSample.log10
           CalibratorSample.mean CalibratorSample.one_read CalibratorSample.no_fit
           CalibratorCases.other_files CalibratorSample.no_table
           CalibratorCases.directory_and_fastq "run1"
           ["alignment_summary.txt"; "reads.fastq.gz"]); [reflexivity..|].
  repeat constructor.
Defined.

(** Two reads and a fit of intercept 1 and slope 2. *)
Lemma single_read_accuracy_scatter_returns_slope_first_witness :
  ∃ lo hi,
    outcome (Calibrator.np_min [8%float; 12%float]) = Ok lo
    ∧ outcome (Calibrator.np_max [8%float; 12%float]) = Ok hi
    ∧ Calibrator.single_read_accuracy_scatter CalibratorSample.log10
        CalibratorCases.fit_one_two [0.9%float; 0.95%float] [8%float; 12%float] 40
      = IO [Calibrator.PltScatter [8%float; 12%float]
              (CalibratorCases.empirical CalibratorSample.log10 40
                 [0.9%float; 0.95%float]);
            Calibrator.PltPlot [lo; hi]
              [PrimFloat.add 1 (PrimFloat.mul 2 lo); PrimFloat.add 1 (PrimFloat.mul 2 hi)]
              (Calibrator.VFormat "slope={:3.2f} intercept={:3.2f}"
                 [Calibrator.VFloat 2; Calibrator.VFloat 1]);
            Calibrator.PltPlot [lo; hi] [lo; hi] (Calibrator.VStr "y=x");
            Calibrator.PltAxes]
           (Ok (2%float, 1%float)).
Proof.
  apply (single_read_accuracy_scatter_returns_slope_first CalibratorSample.log10
           CalibratorCases.fit_one_two [0.9%float; 0.95%float] [8%float; 12%float]
           40 1 2); [discriminate|reflexivity].
Defined.

(** The stand-ins of [CalibratorCases] meet what IEEE 754 fixes, so three
    qualities of zero give the score zero. *)
Lemma fastq_file_qscore_zeros_witness :
  Calibrator.fastq_file_qscore CalibratorCases.power_at_zero
    CalibratorCases.log10_at_one CalibratorCases.mean_of_equal (replicate 3 0%Z)
  = (-0)%float
  ∧ PrimFloat.eqb
      (Calibrator.fastq_file_qscore CalibratorCases.power_at_zero
         CalibratorCases.log10_at_one CalibratorCases.mean_of_equal (replicate 3 0%Z)) 0
    = true.
Proof.
  apply (fastq_file_qscore_zeros CalibratorCases.power_at_zero
           CalibratorCases.log10_at_one CalibratorCases.mean_of_equal).
  - intros x. reflexivity.
  - reflexivity.
  - intros n. reflexivity.
Defined.
